(** * Booking form: validation rule selector and derived end date

    A model of [app/components/booking/form.tsx]:

    - [BookingFormSchema] builds one of three Zod schemas from the requested
      action and the booking status;
    - the [onChange] handler of the start-date input recomputes the end date
      of a new booking.

    The schemas are Zod values.  Zod is modelled by the combinators the file
    uses ([z.string], [z.array], [z.coerce.date], [optional], [nullable],
    [transform], [pipe], [refine], [z.object], [extend]); each combinator is a
    parser that returns a status ([valid], [dirty], [aborted]), a value and
    the issues it reported, the way Zod's [_parse] methods do.  JavaScript
    exceptions are explicit: a computation either returns or throws. *)

From Stdlib Require Import Bool List String Ascii ZArith Lia DecimalString.
Import ListNotations.
Local Open Scope string_scope.
Local Open Scope list_scope.
Local Open Scope Z_scope.
Set Warnings "-register-all".

(** ** JavaScript values and completions *)

(** The values that reach the form: form fields are strings, JSON payloads
    are built from strings, integral numbers, booleans, [null], arrays and
    objects, and parsed dates are [Date] objects.  The payload of [VDate] is
    the time value in milliseconds; [None] is an Invalid Date (time value
    NaN).  An object is the list of its own properties. *)
Inductive JsVal : Type :=
| VUndefined
| VNull
| VBool (b : bool)
| VNumber (n : Z)
| VString (s : string)
| VDate (t : option Z)
| VArray (items : list JsVal)
| VObject (props : list (string * JsVal)).

Inductive JsError : Type :=
| SyntaxError
| RangeError
| Error (message : string).

(** The outcome of running JavaScript code: a value, or a thrown error. *)
Inductive Completion (A : Type) : Type :=
| Return (a : A)
| Throw (e : JsError).
Arguments Return {A} a.
Arguments Throw {A} e.

Definition bind {A B : Type} (c : Completion A) (k : A -> Completion B)
  : Completion B :=
  match c with
  | Return a => k a
  | Throw e => Throw e
  end.

Notation "x <- c ;; k" := (bind c (fun x => k))
  (at level 61, c at next level, right associativity).

(** [o[key]] for an own property; a missing property reads as [undefined]. *)
Fixpoint get (key : string) (props : list (string * JsVal)) : JsVal :=
  match props with
  | [] => VUndefined
  | (k, v) :: rest => if String.eqb k key then v else get key rest
  end.

(** [key in o]. *)
Fixpoint has (key : string) (props : list (string * JsVal)) : bool :=
  match props with
  | [] => false
  | (k, _) :: rest => String.eqb k key || has key rest
  end.

Definition prop (o : JsVal) (key : string) : JsVal :=
  match o with
  | VObject props => get key props
  | _ => VUndefined
  end.

(** ToBoolean. *)
Definition truthy (v : JsVal) : bool :=
  match v with
  | VUndefined | VNull => false
  | VBool b => b
  | VNumber n => negb (n =? 0)
  | VString s => negb (String.eqb s EmptyString)
  | VDate _ | VArray _ | VObject _ => true
  end.

(** [a && b]: the first operand when it is falsy, the second otherwise. *)
Definition js_and (a b : JsVal) : JsVal := if truthy a then b else a.

(** [a > b] on time values; a comparison with NaN is false. *)
Definition time_gt (a b : option Z) : bool :=
  match a, b with
  | Some x, Some y => x >? y
  | _, _ => false
  end.

(** [a > b] for two [Date] operands (each is converted to its time value).
    Operands of another type do not occur where the form compares. *)
Definition js_gt (a b : JsVal) : JsVal :=
  match a, b with
  | VDate x, VDate y => VBool (time_gt x y)
  | _, _ => VBool false
  end.

(** ** The host *)

(** What the form takes from the JavaScript runtime. *)
Record Host : Type := {
  (** [JSON.parse(text)]; [None] when it throws a [SyntaxError]. *)
  JSON_parse : string -> option JsVal;
  (** [new Date(value)]: the time value, [None] for an Invalid Date. *)
  Date_new : JsVal -> option Z;
  (** [new Date()]: the time value of the current instant. *)
  Date_now : Z;
  (** [date.toLocaleString("en-US", { timeZone })]; [None] when it throws
      a [RangeError], the zone name being one the runtime does not know. *)
  toLocaleString : Z -> string -> option string;
  (** Offset of the local time zone from UTC, in milliseconds. *)
  LocalTZA : Z
}.

(** ** Zod *)

Inductive ParseStatus : Type := valid | dirty | aborted.

Inductive PathItem : Type :=
| Key (k : string)
| Index (i : nat).

Definition Path := list PathItem.

Inductive IssueCode : Type :=
| invalid_type
| invalid_date
| too_small
| custom.

Record ZodIssue : Type := mkIssue {
  code : IssueCode;
  path : Path;
  message : string
}.

(** What a [_parse] method returns, together with the issues it added to the
    parse context. *)
Record ParseReturn : Type := mkParse {
  status : ParseStatus;
  value : JsVal;
  issues : list ZodIssue
}.

Definition ZodType : Type := Path -> JsVal -> Completion ParseReturn.

Definition OK (v : JsVal) : ParseReturn := mkParse valid v [].

(** [INVALID], returned after the issues [iss] were reported. *)
Definition INVALID (iss : list ZodIssue) : ParseReturn :=
  mkParse aborted VUndefined iss.

(** [z.NEVER] is the frozen object [INVALID] itself. *)
Definition z_NEVER : JsVal := VObject [("status", VString "aborted")].

(** [getParsedType], as the name printed in messages. *)
Definition parsedType (v : JsVal) : string :=
  match v with
  | VUndefined => "undefined"
  | VNull => "null"
  | VBool _ => "boolean"
  | VNumber _ => "number"
  | VString _ => "string"
  | VDate _ => "date"
  | VArray _ => "array"
  | VObject _ => "object"
  end.

(** The default error map for [invalid_type]. *)
Definition invalid_type_issue (p : Path) (expected : string) (v : JsVal)
  : ZodIssue :=
  mkIssue invalid_type p
    (match v with
     | VUndefined => "Required"
     | _ => ("Expected " ++ expected ++ ", received " ++ parsedType v)%string
     end).

(** [ParseStatus.dirty()] keeps [aborted]. *)
Definition mark_dirty (s : ParseStatus) : ParseStatus :=
  match s with
  | aborted => aborted
  | _ => dirty
  end.

(** [z.string()] and [z.string().min(n, msg)]. *)
Definition z_string_min (min : option (nat * string)) : ZodType :=
  fun p v =>
    match v with
    | VString s =>
        match min with
        | Some (n, msg) =>
            if Nat.ltb (String.length s) n
            then Return (mkParse dirty v [mkIssue too_small p msg])
            else Return (OK v)
        | None => Return (OK v)
        end
    | _ => Return (INVALID [invalid_type_issue p "string" v])
    end.

Definition z_string : ZodType := z_string_min None.

(** The status after [status.dirty()] or [INVALID] for each result in
    turn, as [ParseStatus.mergeArray] and [mergeObjectSync] compute it:
    [aborted] when a result aborted, else [dirty] when one is dirty. *)
Fixpoint mergeStatus (sts : list ParseStatus) : ParseStatus :=
  match sts with
  | [] => valid
  | aborted :: _ => aborted
  | dirty :: rest => mark_dirty (mergeStatus rest)
  | valid :: rest => mergeStatus rest
  end.

Fixpoint parseItems (elem : ZodType) (p : Path) (i : nat)
  (items : list JsVal) : Completion (list ParseReturn) :=
  match items with
  | [] => Return []
  | x :: rest =>
      r <- elem (p ++ [Index i]) x ;;
      rs <- parseItems elem p (S i) rest ;;
      Return (r :: rs)
  end.

(** [z.array(elem)]. *)
Definition z_array (elem : ZodType) : ZodType :=
  fun p v =>
    match v with
    | VArray items =>
        rs <- parseItems elem p 0%nat items ;;
        let iss := flat_map issues rs in
        match mergeStatus (map status rs) with
        | aborted => Return (INVALID iss)
        | st => Return (mkParse st (VArray (map value rs)) iss)
        end
    | _ => Return (INVALID [invalid_type_issue p "array" v])
    end.

(** [schema.optional()]. *)
Definition z_optional (inner : ZodType) : ZodType :=
  fun p v =>
    match v with
    | VUndefined => Return (OK VUndefined)
    | _ => inner p v
    end.

(** [schema.nullable()]. *)
Definition z_nullable (inner : ZodType) : ZodType :=
  fun p v =>
    match v with
    | VNull => Return (OK VNull)
    | _ => inner p v
    end.

(** [schema.refine(check, { message, path })]: the check runs unless the
    inner parse aborted; a falsy result adds a [custom] issue at
    [ctx.path ++ path] and makes the result dirty.  An error thrown by the
    check is not caught. *)
Definition z_refine (inner : ZodType) (check : JsVal -> Completion JsVal)
  (msg : string) (issuePath : Path) : ZodType :=
  fun p v =>
    r <- inner p v ;;
    match status r with
    | aborted => Return (INVALID (issues r))
    | _ =>
        ok <- check (value r) ;;
        if truthy ok
        then Return r
        else Return (mkParse dirty (value r)
                       (issues r ++ [mkIssue custom (p ++ issuePath) msg]))
    end.

(** [schema.transform(f)]: [f] runs on a valid inner result only.  [f]
    returns the messages it passed to [ctx.addIssue] (code [custom], not
    fatal) and its result; an error thrown by [f] is not caught. *)
Definition z_transform (inner : ZodType)
  (f : JsVal -> Completion (list string * JsVal)) : ZodType :=
  fun p v =>
    base <- inner p v ;;
    match status base with
    | valid =>
        out <- f (value base) ;;
        let added := map (mkIssue custom p) (fst out) in
        Return (mkParse (match added with [] => valid | _ => dirty end)
                  (snd out) (issues base ++ added))
    | _ => Return base
    end.

(** [a.pipe(b)]: [b] parses the output of [a] when [a] is valid. *)
Definition z_pipe (a b : ZodType) : ZodType :=
  fun p v =>
    inResult <- a p v ;;
    match status inResult with
    | aborted => Return (INVALID (issues inResult))
    | dirty => Return (mkParse dirty (value inResult) (issues inResult))
    | valid =>
        r <- b p (value inResult) ;;
        Return (mkParse (status r) (value r) (issues inResult ++ issues r))
    end.

(** The shape of a [z.object]: its keys in declaration order. *)
Definition Shape : Type := list (string * ZodType).

(** One entry of the [pairs] array of [ZodObject._parse]. *)
Record Pair : Type := mkPair {
  pkey : string;
  presult : ParseReturn;
  alwaysSet : bool
}.

(** The loop over the shape keys: every field is parsed, in order. *)
Fixpoint parsePairs (shape : Shape) (p : Path) (data : list (string * JsVal))
  : Completion (list Pair) :=
  match shape with
  | [] => Return []
  | (k, keyValidator) :: rest =>
      r <- keyValidator (p ++ [Key k]) (get k data) ;;
      rs <- parsePairs rest p data ;;
      Return (mkPair k r (has k data) :: rs)
  end.

Definition is_undefined (v : JsVal) : bool :=
  match v with
  | VUndefined => true
  | _ => false
  end.

(** The object built by [mergeObjectSync]. *)
Fixpoint finalObject (pairs : list Pair) : list (string * JsVal) :=
  match pairs with
  | [] => []
  | pr :: rest =>
      if negb (String.eqb (pkey pr) "__proto__")
         && (negb (is_undefined (value (presult pr))) || alwaysSet pr)
      then (pkey pr, value (presult pr)) :: finalObject rest
      else finalObject rest
  end.

(** [z.object(shape)], unknown keys stripped. *)
Definition z_object (shape : Shape) : ZodType :=
  fun p v =>
    match v with
    | VObject data =>
        pairs <- parsePairs shape p data ;;
        let iss := flat_map (fun pr => issues (presult pr)) pairs in
        match mergeStatus (map (fun pr => status (presult pr)) pairs) with
        | aborted => Return (INVALID iss)
        | st => Return (mkParse st (VObject (finalObject pairs)) iss)
        end
    | _ => Return (INVALID [invalid_type_issue p "object" v])
    end.

(** [{ ...shape, [k]: t }]: an existing key keeps its place. *)
Fixpoint assign (shape : Shape) (k : string) (t : ZodType) : Shape :=
  match shape with
  | [] => [(k, t)]
  | (k', t') :: rest =>
      if String.eqb k' k then (k', t) :: rest else (k', t') :: assign rest k t
  end.

(** [object.extend(augmentation)], on shapes. *)
Definition extend (shape augmentation : Shape) : Shape :=
  fold_left (fun sh kt => assign sh (fst kt) (snd kt)) augmentation shape.

Inductive SafeParseReturn : Type :=
| Success (data : JsVal)
| Failure (error : list ZodIssue).

(** [schema.safeParse(data)]. *)
Definition safeParse (schema : ZodType) (data : JsVal)
  : Completion SafeParseReturn :=
  r <- schema [] data ;;
  match status r with
  | valid => Return (Success (value r))
  | _ =>
      match issues r with
      | [] => Throw (Error "Validation failed but no issues detected.")
      | iss => Return (Failure iss)
      end
  end.

(** ** Dates *)

(** Time values are integers (milliseconds since the epoch); the limit of
    8.64e15 on their magnitude is not modelled. *)
Definition msPerDay : Z := 86400000.
Definition Day (t : Z) : Z := t / msPerDay.
Definition TimeWithinDay (t : Z) : Z := t mod msPerDay.
Definition HourFromTime (t : Z) : Z := (t / 3600000) mod 24.
Definition MinFromTime (t : Z) : Z := (t / 60000) mod 60.
Definition SecFromTime (t : Z) : Z := (t / 1000) mod 60.
Definition msFromTime (t : Z) : Z := t mod 1000.

Definition MakeTime (hour min sec ms : Z) : Z :=
  hour * 3600000 + min * 60000 + sec * 1000 + ms.
Definition MakeDate (day time : Z) : Z := day * msPerDay + time.

(** Year, month (1 to 12) and day of the month of a day number. *)
Definition civil_from_days (days : Z) : Z * Z * Z :=
  let z := days + 719468 in
  let era := z / 146097 in
  let doe := z - era * 146097 in
  let yoe := (doe - doe / 1460 + doe / 36524 - doe / 146096) / 365 in
  let doy := doe - (365 * yoe + yoe / 4 - yoe / 100) in
  let mp := (5 * doy + 2) / 153 in
  let d := doy - (153 * mp + 2) / 5 + 1 in
  let m := if mp <? 10 then mp + 3 else mp - 9 in
  (if m <=? 2 then yoe + era * 400 + 1 else yoe + era * 400, m, d).

(** The day number of a year, month and day of the month. *)
Definition days_from_civil (y m d : Z) : Z :=
  let y' := if m <=? 2 then y - 1 else y in
  let era := y' / 400 in
  let yoe := y' - era * 400 in
  let doy := (153 * (if m <=? 2 then m + 9 else m - 3) + 2) / 5 + d - 1 in
  let doe := yoe * 365 + yoe / 4 - yoe / 100 + doy in
  era * 146097 + doe - 719468.

Definition digit (n : Z) : ascii := ascii_of_nat (48 + Z.to_nat (n mod 10)).
Definition pad2 (n : Z) : string :=
  String (digit (n / 10)) (String (digit n) EmptyString).
Definition pad4 (n : Z) : string :=
  String (digit (n / 1000)) (String (digit (n / 100)) (pad2 n)).

(** [YYYY-MM-DD] of a day number. *)
Definition isoDate (day : Z) : string :=
  match civil_from_days day with
  | (y, m, d) => (pad4 y ++ "-" ++ pad2 m ++ "-" ++ pad2 d)%string
  end.

(** [HH:MM:SS] of a time within the day. *)
Definition isoTime (t : Z) : string :=
  (pad2 (HourFromTime t) ++ ":" ++ pad2 (MinFromTime t) ++ ":"
   ++ pad2 (SecFromTime t))%string.

(** ** The booking form *)

(** Modelled from the spec: the enumeration [BookingStatus] of
    [@prisma/client], generated from a schema that is not part of this file;
    the spec lists its lifecycle states. *)
Inductive BookingStatus : Type :=
| DRAFT
| RESERVED
| ONGOING
| OVERDUE
| COMPLETED
| CANCELLED
| ARCHIVED.

(** The part of [ReturnType<typeof getHints>] the form reads. *)
Record Hints : Type := { timeZone : string }.

Section BookingForm.

Variable host : Host.

(** [z.coerce.date()]: the input becomes [new Date(input)]; an Invalid Date
    is reported as [invalid_date]. *)
Definition z_coerce_date : ZodType :=
  fun p v =>
    match Date_new host v with
    | Some t => Return (OK (VDate (Some t)))
    | None => Return (INVALID [mkIssue invalid_date p "Invalid date"])
    end.

(** The callback of the custodian [transform]: the empty text is reported
    through [ctx.addIssue]; any other text goes to [JSON.parse], whose
    [SyntaxError] is not caught.  The argument is the output of
    [z.string()]; a value that is not a string does not reach the
    callback. *)
Definition custodianTransform (val : JsVal)
  : Completion (list string * JsVal) :=
  match val with
  | VString s =>
      if negb (truthy val) && String.eqb s EmptyString
      then Return (["Please select a custodian"], z_NEVER)
      else
        match JSON_parse host s with
        | Some parsed => Return ([], parsed)
        | None => Throw SyntaxError
        end
  | _ => Throw SyntaxError
  end.

Definition custodianSchema : ZodType :=
  z_pipe
    (z_transform z_string custodianTransform)
    (z_object
       [("id", z_string);
        ("name", z_string);
        ("userId", z_nullable (z_optional z_string))]).

(** Base schema which is common in every case. *)
Definition baseShape : Shape :=
  [("name", z_string_min (Some (2%nat, "Name is required")));
   ("assetIds", z_optional (z_array z_string));
   ("description", z_optional z_string);
   ("custodian", custodianSchema);
   ("startDate", z_optional z_coerce_date);
   ("endDate", z_optional z_coerce_date)].

Definition baseSchema : ZodType := z_object baseShape.

(** The [now] of the start-date refinement: with a hint that names a zone,
    the current instant written by [toLocaleString] in that zone and read
    back by [new Date]; the current instant otherwise.  [toLocaleString]
    throws a [RangeError] at a zone name the runtime does not know. *)
Definition now (hints : option Hints) : Completion (option Z) :=
  match hints with
  | Some h =>
      if truthy (VString (timeZone h))
      then
        match toLocaleString host (Date_now host) (timeZone h) with
        | Some text => Return (Date_new host (VString text))
        | None => Throw RangeError
        end
      else Return (Some (Date_now host))
  | None => Return (Some (Date_now host))
  end.

Definition startDateSchema (hints : option Hints) : ZodType :=
  z_refine z_coerce_date
    (fun data =>
       n <- now hints ;;
       Return (js_gt data (VDate n)))
    "Start date must be in the future" [].

(** Complete schema with all fields. *)
Definition fullShape (hints : option Hints) : Shape :=
  extend baseShape
    [("startDate", startDateSchema hints);
     ("endDate", z_coerce_date)].

(** [(data) => data.endDate && data.startDate &&
    data.endDate > data.startDate]. *)
Definition endAfterStart (data : JsVal) : Completion JsVal :=
  Return (js_and (js_and (prop data "endDate") (prop data "startDate"))
            (js_gt (prop data "endDate") (prop data "startDate"))).

Definition endDateMessage : string :=
  "End date cannot be earlier than start date".

(** Complete schema with id field. *)
Definition fullSchemaWithId (hints : option Hints) : ZodType :=
  z_refine (z_object (extend (fullShape hints) [("id", z_string)]))
    endAfterStart endDateMessage [Key "endDate"].

(** The inner [switch (status)] of the ["save"] case: [None] when no case
    matches and control leaves the inner switch. *)
Definition saveCase (hints : option Hints) (status : BookingStatus)
  : option ZodType :=
  match status with
  | DRAFT => Some (fullSchemaWithId hints)
  | RESERVED | ONGOING | OVERDUE => Some baseSchema
  | COMPLETED | CANCELLED | ARCHIVED => None
  end.

(** [BookingFormSchema({ hints, action, status })].  The ["save"] case has no
    [break]: when its inner switch matches nothing, control falls through to
    [default]. *)
Definition BookingFormSchema (hints : option Hints) (action : string)
  (status : option BookingStatus) : Completion ZodType :=
  if String.eqb action "new" then
    Return (z_refine (z_object (fullShape hints))
              endAfterStart endDateMessage [Key "endDate"])
  else if String.eqb action "reserve" then
    Return (fullSchemaWithId hints)
  else
    returned <-
      (if String.eqb action "save" then
         match status with
         | None => Throw (Error "Status is required for save action.")
         | Some st => Return (saveCase hints st)
         end
       else Return None) ;;
    match returned with
    | Some schema => Return schema
    | None => Return baseSchema
    end.

(** Validation of [data] with the schema the selector returns: an error
    thrown by the selector or by the parse is the outcome. *)
Definition validate (hints : option Hints) (action : string)
  (status : option BookingStatus) (data : JsVal)
  : Completion SafeParseReturn :=
  schema <- BookingFormSchema hints action status ;;
  safeParse schema data.

(** *** The start-date input *)

Definition LocalTime (t : Z) : Z := t + LocalTZA host.
Definition UTC (t : Z) : Z := t - LocalTZA host.

(** [date.setHours(hour, min, sec)]: the local hours, minutes and seconds
    are replaced, the day and the milliseconds kept; the result is the new
    time value, NaN for an Invalid Date. *)
Definition setHours (date : option Z) (hour min sec : Z) : option Z :=
  match date with
  | Some t =>
      let lt := LocalTime t in
      Some (UTC (MakeDate (Day lt) (MakeTime hour min sec (msFromTime lt))))
  | None => None
  end.

(** Modelled from the spec: [dateForDateTimeInputValue] of
    [~/utils/date-fns], which is not part of this file.  It writes a date in
    the textual form of a date-time input, on the local clock and with the
    seconds: [YYYY-MM-DDTHH:MM:SS].  The spec leaves an Invalid Date
    undefined; it is given the empty text. *)
Definition dateForDateTimeInputValue (date : option Z) : string :=
  match date with
  | Some t =>
      let lt := LocalTime t in
      (isoDate (Day lt) ++ "T" ++ isoTime (TimeWithinDay lt))%string
  | None => EmptyString
  end.

(** The [onChange] handler of the start-date input.  [endDate] is the
    component state ([undefined] is [None]), [value] is
    [event.target.value]; the result is the state after the handler. *)
Definition onStartDateChange (isNewBooking : bool) (endDate : option string)
  (value : string) : option string :=
  let newStartDate := Date_new host (VString value) in
  match endDate with
  | Some e =>
      if isNewBooking && truthy (VString e)
         && time_gt newStartDate (Date_new host (VString e))
      then
        let newEndDate :=
          dateForDateTimeInputValue (setHours newStartDate 18 0 0) in
        Some (substring 0 (String.length newEndDate - 3) newEndDate)
      else endDate
  | None => endDate
  end.

End BookingForm.

(** ** The form component *)

(** [BookingFlags]. *)
Record BookingFlags : Type := {
  hasAssets : bool;
  hasUnavailableAssets : bool;
  hasCheckedOutAssets : bool;
  hasAlreadyBookedAssets : bool;
  hasAssetsInCustody : bool
}.

(** What [useBookingStatusHelpers(status)] returns.  The hook is in
    [~/hooks/use-booking-status], not in this file: its result is an input
    of the component here, and nothing is assumed about how the flags
    follow from the status. *)
Record BookingStatusHelpers : Type := {
  isDraft : bool;
  isReserved : bool;
  isOngoing : bool;
  isOverdue : bool;
  isCompleted : bool;
  isCancelled : bool;
  isArchived : bool
}.

(** [o?.flag] as a condition: an absent object reads as falsy. *)
Definition flag {A : Type} (f : A -> bool) (o : option A) : bool :=
  match o with
  | Some x => f x
  | None => false
  end.

(** The [disabled] prop of a button: [false], or [{ reason }] with a reason
    that may be [undefined]. *)
Inductive DisabledProp : Type :=
| Enabled
| Disabled (reason : option string).

(** A member of the team, as the loader gives it: [userId] is [null] when
    no user is linked. *)
Record TeamMember : Type := {
  memberId : string;
  memberUserId : option string
}.

(** [!id]: there is no id, or it is the empty text. *)
Definition isNewBooking (id : option string) : bool :=
  match id with
  | Some s => negb (truthy (VString s))
  | None => true
  end.

(** [isProcessing || bookingStatus?.isArchived], as a condition. *)
Definition disabled (isProcessing : bool)
  (bookingStatus : option BookingStatusHelpers) : bool :=
  isProcessing || flag isArchived bookingStatus.

Definition inputFieldIsDisabled (isProcessing : bool)
  (bookingStatus : option BookingStatusHelpers) : bool :=
  disabled isProcessing bookingStatus
  || (flag isReserved bookingStatus
      || flag isOngoing bookingStatus
      || flag isCompleted bookingStatus
      || flag isOverdue bookingStatus
      || flag isCancelled bookingStatus).

(** The [disabled] prop of the name input and of the description input. *)
Definition nameInputDisabled (isProcessing : bool)
  (bookingStatus : option BookingStatusHelpers) : bool :=
  disabled isProcessing bookingStatus
  || flag isCompleted bookingStatus
  || flag isCancelled bookingStatus
  || flag isArchived bookingStatus.

(** The [disabled] prop of the custodian select. *)
Definition custodianSelectDisabled (isProcessing isBaseOrSelfService : bool)
  (bookingStatus : option BookingStatusHelpers) : bool :=
  disabled isProcessing bookingStatus
  || isBaseOrSelfService
  || inputFieldIsDisabled isProcessing bookingStatus.

(** [!isNewBooking && canSeeActions]: the header actions, and the buttons
    among them, are rendered for a stored booking whose actions the user can
    see. *)
Definition headerActionsShown (id : option string) (canSeeActions : bool)
  : bool :=
  negb (isNewBooking id) && canSeeActions.

(** The Save button is rendered among the header actions, unless the
    booking is in a final state. *)
Definition saveButtonShown (id : option string) (canSeeActions : bool)
  (bookingStatus : option BookingStatusHelpers) : bool :=
  headerActionsShown id canSeeActions
  && negb (flag isCompleted bookingStatus
           || flag isCancelled bookingStatus
           || flag isArchived bookingStatus).

(** The value of the hidden [nameChangeOnly] input. *)
Definition nameChangeOnly (bookingStatus : option BookingStatusHelpers)
  : string :=
  if flag isDraft bookingStatus then "no" else "yes".

(** The [disabled] prop of the Reserve button. *)
Definition reserveButtonDisabled (isProcessing : bool)
  (bookingStatus : option BookingStatusHelpers)
  (bookingFlags : option BookingFlags) : DisabledProp :=
  if disabled isProcessing bookingStatus
     || negb (flag hasAssets bookingFlags)
     || flag hasAlreadyBookedAssets bookingFlags
     || flag hasUnavailableAssets bookingFlags
  then
    Disabled
      (if flag hasUnavailableAssets bookingFlags
       then Some "You have some assets in your booking that are marked as unavailble. Either remove the assets from this booking or make them available again"
       else if flag hasAlreadyBookedAssets bookingFlags
       then Some "Your booking has assets that are already booked for the desired period. You need to resolve that before you can reserve"
       else if isProcessing
       then None
       else Some "You need to add assets to your booking before you can reserve it")
  else Enabled.

(** The check-out dialog is rendered among the header actions, for a
    reserved booking when the user may check out. *)
Definition checkoutShown (id : option string) (canSeeActions : bool)
  (bookingStatus : option BookingStatusHelpers)
  (canCheckOutBooking : bool) : bool :=
  headerActionsShown id canSeeActions
  && (flag isReserved bookingStatus && canCheckOutBooking).

(** The [disabled] prop of the check-out dialog. *)
Definition checkoutDisabled (isProcessing : bool)
  (bookingStatus : option BookingStatusHelpers)
  (bookingFlags : option BookingFlags) : DisabledProp :=
  if disabled isProcessing bookingStatus
     || flag hasUnavailableAssets bookingFlags
     || flag hasCheckedOutAssets bookingFlags
     || flag hasAssetsInCustody bookingFlags
  then
    Disabled
      (if flag hasAssetsInCustody bookingFlags
       then Some "Some assets in this booking are currently in custody. You need to resolve that before you can check-out"
       else if isProcessing
       then None
       else Some "Some assets in this booking are not Available because they’re part of an Ongoing or Overdue booking")
  else Enabled.

(** The check-in dialog is rendered among the header actions, for an
    ongoing or overdue booking when the user may check in. *)
Definition checkinShown (id : option string) (canSeeActions : bool)
  (bookingStatus : option BookingStatusHelpers)
  (canCheckInBooking : bool) : bool :=
  headerActionsShown id canSeeActions
  && ((flag isOngoing bookingStatus || flag isOverdue bookingStatus)
      && canCheckInBooking).

(** The [disabled] prop of the add-to-calendar button. *)
Definition addToCalendarDisabled (isProcessing : bool)
  (bookingStatus : option BookingStatusHelpers) : bool :=
  disabled isProcessing bookingStatus
  || flag isDraft bookingStatus
  || flag isCancelled bookingStatus
  || false.

(** [m.userId === ref] for a reference that may be [undefined]: [null] is
    not [undefined]. *)
Definition userIdIs (m : TeamMember) (ref : option string) : bool :=
  match memberUserId m, ref with
  | Some u, Some r => String.eqb u r
  | _, _ => false
  end.

(** [m.id === ref]. *)
Definition idIs (m : TeamMember) (ref : option string) : bool :=
  match ref with
  | Some r => String.eqb (memberId m) r
  | None => false
  end.

(** [teamMembers?.find((m) => m.userId === custodianRef ||
    m.id === custodianRef)]. *)
Definition defaultTeamMember (teamMembers : option (list TeamMember))
  (custodianRef : option string) : option TeamMember :=
  match teamMembers with
  | Some members =>
      find (fun m => userIdIs m custodianRef || idIs m custodianRef) members
  | None => None
  end.

Definition canSeeActions (isBaseOrSelfService : bool)
  (teamMembers : option (list TeamMember)) (custodianRef : option string)
  (userId : string) : bool :=
  negb isBaseOrSelfService
  || (isBaseOrSelfService
      && (flag (fun m => userIdIs m (Some userId))
            (defaultTeamMember teamMembers custodianRef)
          || flag (fun m => idIs m (Some userId))
               (defaultTeamMember teamMembers custodianRef))).

Section FormSchema.

Variable host : Host.

(** The schema the component asks for: no hints, ["new"] for a new booking
    and ["save"] for a stored one. *)
Definition formSchema (id : option string) (status : option BookingStatus)
  : Completion ZodType :=
  BookingFormSchema host None
    (if isNewBooking id then "new" else "save") status.

End FormSchema.

(** * Vocabulary of the properties *)

Definition passes (c : Completion SafeParseReturn) : Prop :=
  exists data, c = Return (Success data).

Definition fails (c : Completion SafeParseReturn) : Prop :=
  exists error, c = Return (Failure error).

(** The validation returns a failure whose issues include [i]. *)
Definition fails_with (c : Completion SafeParseReturn) (i : ZodIssue) : Prop :=
  exists error, c = Return (Failure error) /\ In i error.

(** A parser is total when it returns on every input. *)
Definition total (t : ZodType) : Prop :=
  forall p v, exists r, t p v = Return r.

(** The check of a refinement returns when it throws on no value. *)
Definition returns (check : JsVal -> Completion JsVal) : Prop :=
  forall v, exists ok, check v = Return ok.

(** Every field of [shape] returns on the record [data]. *)
Definition fields_return (shape : Shape) (p : Path)
  (data : list (string * JsVal)) : Prop :=
  forall k ty, In (k, ty) shape ->
    exists r, ty (p ++ [Key k]) (get k data) = Return r.

Section Vocabulary.

Variable host : Host.

(** The custodian text can be decoded: it is empty, or [JSON.parse] accepts
    it.  A value that is not a string never reaches [JSON.parse]. *)
Definition custodian_decodes (v : JsVal) : bool :=
  match v with
  | VString s =>
      String.eqb s EmptyString
      || match JSON_parse host s with Some _ => true | None => false end
  | _ => true
  end.

(** The fields every selected schema starts with. *)
Definition commonFields : Shape :=
  [("name", z_string_min (Some (2%nat, "Name is required")));
   ("assetIds", z_optional (z_array z_string));
   ("description", z_optional z_string);
   ("custodian", custodianSchema host)].

(** The schema returned for ["new"]. *)
Definition schemaForNew (hints : option Hints) : ZodType :=
  z_refine (z_object (fullShape host hints))
    endAfterStart endDateMessage [Key "endDate"].

(** How a selected schema is built: an object over the common fields and
    further total fields, bare or under the end-after-start refinement. *)
Inductive selected (schema : ZodType) (shape : Shape) : Prop :=
| selected_object :
    schema = z_object shape -> selected schema shape
| selected_refined :
    schema = z_refine (z_object shape) endAfterStart endDateMessage
               [Key "endDate"] ->
    selected schema shape.

Definition is_string (v : JsVal) : bool :=
  match v with
  | VString _ => true
  | _ => false
  end.

(** Absent, or a string. *)
Definition opt_string (v : JsVal) : bool :=
  match v with
  | VUndefined | VString _ => true
  | _ => false
  end.

(** Absent, or an array of strings. *)
Definition opt_string_array (v : JsVal) : bool :=
  match v with
  | VUndefined => true
  | VArray items => forallb is_string items
  | _ => false
  end.

(** A name of at least two characters. *)
Definition name_ok (v : JsVal) : bool :=
  match v with
  | VString n => (2 <=? String.length n)%nat
  | _ => false
  end.

(** What the custodian text must decode to: an object whose [id] and [name]
    are strings and whose [userId] is absent, [null] or a string. *)
Definition custodian_payload (j : JsVal) : bool :=
  match j with
  | VObject props =>
      is_string (get "id" props) && is_string (get "name" props)
      && match get "userId" props with
         | VUndefined | VNull | VString _ => true
         | _ => false
         end
  | _ => false
  end.

(** A custodian that validates: a text that is not empty and decodes to a
    custodian payload. *)
Definition custodian_ok (v : JsVal) : bool :=
  match v with
  | VString c =>
      negb (String.eqb c EmptyString)
      && match JSON_parse host c with
         | Some j => custodian_payload j
         | None => false
         end
  | _ => false
  end.

(** The shape of the complete schema, without or with the [id] field. *)
Definition completeShape (hints : option Hints) (withId : bool) : Shape :=
  commonFields
  ++ [("startDate", startDateSchema host hints);
      ("endDate", z_coerce_date host)]
  ++ (if withId then [("id", z_string)] else []).

(** The custodian does not abort the object: it validates, or it is the
    empty text (reported, and dirty). *)
Definition custodian_given (v : JsVal) : bool :=
  custodian_ok v
  || match v with
     | VString c => String.eqb c EmptyString
     | _ => false
     end.

(** The other fields of a record are well typed for the complete schema:
    each is of the type its field expects, so that none aborts. *)
Definition well_typed (withId : bool) (data : list (string * JsVal)) : bool :=
  is_string (get "name" data)
  && opt_string_array (get "assetIds" data)
  && opt_string (get "description" data)
  && custodian_given (get "custodian" data)
  && (if withId then is_string (get "id" data) else true).

(** A date field of the base schema is absent or coerces to a date. *)
Definition opt_date (v : JsVal) : bool :=
  match v with
  | VUndefined => true
  | _ => match Date_new host v with Some _ => true | None => false end
  end.

(** The action and status select a rule set that validates both dates:
    ["new"], ["reserve"], or ["save"] of a DRAFT booking. *)
Definition validates_both_dates (action : string)
  (status : option BookingStatus) : Prop :=
  action = "new" \/ action = "reserve"
  \/ (action = "save" /\ status = Some DRAFT).

(** The schema of the action has the [id] field: every complete schema but
    the one for ["new"]. *)
Definition requires_id (action : string) : bool :=
  negb (String.eqb action "new").

(** [validates_both_dates], decided: the rule sets whose start date is under
    the future-date refinement. *)
Definition refines_start_date (action : string)
  (status : option BookingStatus) : bool :=
  String.eqb action "new" || String.eqb action "reserve"
  || (String.eqb action "save"
      && match status with
         | Some DRAFT => true
         | _ => false
         end).

(** The hint names no zone, or a zone the runtime knows: [toLocaleString]
    accepts it. *)
Definition zone_known (hints : option Hints) : bool :=
  match hints with
  | Some h =>
      String.eqb (timeZone h) EmptyString
      || match toLocaleString host (Date_now host) (timeZone h) with
         | Some _ => true
         | None => false
         end
  | None => true
  end.

(** The instant the future-date check compares with: [n] is the current
    instant read in the zone of the hint when the hint names a zone (the
    text [toLocaleString] writes for that zone, read back as a date), and
    the ambient current instant otherwise. *)
Definition current_instant (hints : option Hints) (n : option Z) : Prop :=
  match hints with
  | Some h =>
      if String.eqb (timeZone h) EmptyString
      then n = Some (Date_now host)
      else exists text,
             toLocaleString host (Date_now host) (timeZone h) = Some text
             /\ n = Date_new host (VString text)
  | None => n = Some (Date_now host)
  end.

(** The validation reaches [toLocaleString] with a zone the runtime does not
    know: the rule set refines the start date, the start date of the record
    coerces to a date, so that the refinement runs, and the hint names an
    unknown zone. *)
Definition start_date_throws (hints : option Hints) (action : string)
  (status : option BookingStatus) (input : JsVal) : bool :=
  refines_start_date action status
  && negb (zone_known hints)
  && match input with
     | VObject data =>
         match Date_new host (get "startDate" data) with
         | Some _ => true
         | None => false
         end
     | _ => false
     end.

(** What the base schema accepts. *)
Definition base_acceptable (data : list (string * JsVal)) : bool :=
  name_ok (get "name" data)
  && opt_string_array (get "assetIds" data)
  && opt_string (get "description" data)
  && custodian_ok (get "custodian" data)
  && opt_date (get "startDate" data)
  && opt_date (get "endDate" data).

(** The start date coerces to a date after the instant [n], and the end
    date to a date after the start date. *)
Definition dates_acceptable (n : option Z) (data : list (string * JsVal))
  : bool :=
  match Date_new host (get "startDate" data),
        Date_new host (get "endDate" data) with
  | Some s, Some e => time_gt (Some s) n && (e >? s)
  | _, _ => false
  end.

(** What the complete schema accepts when the current instant is [n]. *)
Definition complete_acceptable (n : option Z) (withId : bool)
  (data : list (string * JsVal)) : bool :=
  name_ok (get "name" data)
  && opt_string_array (get "assetIds" data)
  && opt_string (get "description" data)
  && custodian_ok (get "custodian" data)
  && dates_acceptable n data
  && (if withId then is_string (get "id" data) else true).

End Vocabulary.

(** ** Vocabulary of the further properties *)

(** A parser reports when every result that is not valid carries an
    issue. *)
Definition reports (t : ZodType) : Prop :=
  forall p v r, t p v = Return r -> status r <> valid -> issues r <> [].

Section FurtherVocabulary.

Variable host : Host.

(** The input is a record whose custodian is a text that is not empty and
    that [JSON.parse] rejects. *)
Definition malformed_custodian (input : JsVal) : bool :=
  match input with
  | VObject data => negb (custodian_decodes host (get "custodian" data))
  | _ => false
  end.

(** The parser of a date field in one of the three schemas. *)
Definition date_field (hints : option Hints) (ty : ZodType) : Prop :=
  ty = z_optional (z_coerce_date host)
  \/ ty = startDateSchema host hints
  \/ ty = z_coerce_date host.

(** The keys of the three schemas. *)
Definition schemaKeys : list string :=
  ["name"; "assetIds"; "description"; "custodian"; "startDate"; "endDate";
   "id"].

End FurtherVocabulary.

(** * A reference host

    A runtime to run the model on concrete inputs: a JSON reader for texts
    with integral numbers and without [\u] escapes, a [Date] constructor that
    reads the date-time texts of an input control and of the [en-US] locale,
    a clock, a [toLocaleString] that knows four zones, and UTC as the local
    zone. *)
Module Reference.

Definition is_ws (c : ascii) : bool :=
  match nat_of_ascii c with
  | 32%nat | 9%nat | 10%nat | 13%nat => true
  | _ => false
  end.

Fixpoint skip_ws (s : string) : string :=
  match s with
  | String c rest => if is_ws c then skip_ws rest else s
  | EmptyString => s
  end.

Definition digit_of (c : ascii) : option Z :=
  let n := nat_of_ascii c in
  if (48 <=? n)%nat && (n <=? 57)%nat then Some (Z.of_nat n - 48) else None.

(** The digits at the head of [s], their count, and the rest. *)
Fixpoint read_digits (acc : Z) (count : nat) (s : string)
  : Z * nat * string :=
  match s with
  | String c rest =>
      match digit_of c with
      | Some d => read_digits (acc * 10 + d) (S count) rest
      | None => (acc, count, s)
      end
  | EmptyString => (acc, count, s)
  end.

Definition read_number (s : string) : option (Z * string) :=
  match read_digits 0 0%nat s with
  | (_, O, _) => None
  | (n, _, rest) => Some (n, rest)
  end.

(** [expect lit s]: [s] without its prefix [lit]. *)
Fixpoint expect (lit s : string) : option string :=
  match lit, s with
  | EmptyString, _ => Some s
  | String a lit', String b s' =>
      if Ascii.eqb a b then expect lit' s' else None
  | _, EmptyString => None
  end.

(** The characters of a JSON string up to its closing quote. *)
Fixpoint read_string (s : string) : option (string * string) :=
  match s with
  | EmptyString => None
  | String c rest =>
      if (nat_of_ascii c =? 34)%nat then Some (EmptyString, rest)
      else if (nat_of_ascii c =? 92)%nat then
        match rest with
        | String e rest' =>
            let unescaped :=
              match nat_of_ascii e with
              | 34%nat | 92%nat | 47%nat => Some e
              | 98%nat => Some (ascii_of_nat 8)
              | 102%nat => Some (ascii_of_nat 12)
              | 110%nat => Some (ascii_of_nat 10)
              | 114%nat => Some (ascii_of_nat 13)
              | 116%nat => Some (ascii_of_nat 9)
              | _ => None
              end in
            match unescaped, read_string rest' with
            | Some u, Some (body, after) => Some (String u body, after)
            | _, _ => None
            end
        | EmptyString => None
        end
      else if (nat_of_ascii c <? 32)%nat then None
      else
        match read_string rest with
        | Some (body, after) => Some (String c body, after)
        | None => None
        end
  end.

(** [o[k] = v] on a property list. *)
Fixpoint set_prop (props : list (string * JsVal)) (k : string) (v : JsVal)
  : list (string * JsVal) :=
  match props with
  | [] => [(k, v)]
  | (k', v') :: rest =>
      if String.eqb k' k then (k', v) :: rest
      else (k', v') :: set_prop rest k v
  end.

Fixpoint read_value (fuel : nat) (s : string) : option (JsVal * string) :=
  match fuel with
  | O => None
  | S fuel' =>
      match skip_ws s with
      | EmptyString => None
      | String c rest =>
          match nat_of_ascii c with
          | 123%nat =>
              match skip_ws rest with
              | String "}" after => Some (VObject [], after)
              | _ => read_members fuel' [] rest
              end
          | 91%nat =>
              match skip_ws rest with
              | String "]" after => Some (VArray [], after)
              | _ => read_elements fuel' [] rest
              end
          | 34%nat =>
              match read_string rest with
              | Some (str, after) => Some (VString str, after)
              | None => None
              end
          | 116%nat =>
              option_map (pair (VBool true)) (expect "rue" rest)
          | 102%nat =>
              option_map (pair (VBool false)) (expect "alse" rest)
          | 110%nat =>
              option_map (pair VNull) (expect "ull" rest)
          | 45%nat =>
              match read_number rest with
              | Some (n, after) => Some (VNumber (- n), after)
              | None => None
              end
          | _ =>
              match read_number (String c rest) with
              | Some (n, after) => Some (VNumber n, after)
              | None => None
              end
          end
      end
  end
with read_members (fuel : nat) (acc : list (string * JsVal)) (s : string)
  : option (JsVal * string) :=
  match fuel with
  | O => None
  | S fuel' =>
      match expect (String (ascii_of_nat 34) EmptyString) (skip_ws s) with
      | Some rest =>
          match read_string rest with
          | Some (k, after) =>
              match skip_ws after with
              | String ":" after' =>
                  match read_value fuel' after' with
                  | Some (v, after'') =>
                      match skip_ws after'' with
                      | String "," more =>
                          read_members fuel' (set_prop acc k v) more
                      | String "}" done =>
                          Some (VObject (set_prop acc k v), done)
                      | _ => None
                      end
                  | None => None
                  end
              | _ => None
              end
          | None => None
          end
      | None => None
      end
  end
with read_elements (fuel : nat) (acc : list JsVal) (s : string)
  : option (JsVal * string) :=
  match fuel with
  | O => None
  | S fuel' =>
      match read_value fuel' s with
      | Some (v, after) =>
          match skip_ws after with
          | String "," more => read_elements fuel' (acc ++ [v]) more
          | String "]" done => Some (VArray (acc ++ [v]), done)
          | _ => None
          end
      | None => None
      end
  end.

(** [JSON.parse]: one value, then only white space. *)
Definition parse_json (s : string) : option JsVal :=
  match read_value (S (String.length s)) s with
  | Some (v, rest) =>
      match skip_ws rest with
      | EmptyString => Some v
      | _ => None
      end
  | None => None
  end.

Definition days_in_month (y m : Z) : Z :=
  (if m =? 12 then days_from_civil (y + 1) 1 1
   else days_from_civil y (m + 1) 1) - days_from_civil y m 1.

(** The time value of a calendar date and a time of day, NaN when a field
    is out of range. *)
Definition make_time_value (y m d hour min sec : Z) : option Z :=
  if (1 <=? m) && (m <=? 12) && (1 <=? d) && (d <=? days_in_month y m)
     && (hour <=? 23) && (min <=? 59) && (sec <=? 59)
  then Some (MakeDate (days_from_civil y m d) (MakeTime hour min sec 0))
  else None.

(** A field of exactly [width] digits. *)
Definition read_field (width : nat) (s : string) : option (Z * string) :=
  match read_digits 0 0%nat s with
  | (n, count, rest) => if Nat.eqb count width then Some (n, rest) else None
  end.

Definition end_of_text (s : string) : option unit :=
  match s with
  | EmptyString => Some tt
  | _ => None
  end.

Notation "' pat <-? c ;; k" :=
  (match c with
   | Some pat => k
   | None => None
   end)
  (at level 61, pat pattern, c at next level, right associativity).

(** [YYYY-MM-DD], or [YYYY-MM-DDTHH:MM] with optional [:SS]; a text with a
    time is on the local clock, which is UTC here. *)
Definition read_iso (s : string) : option Z :=
  ' (y, s1) <-? read_field 4 s ;;
  ' s2 <-? expect "-" s1 ;;
  ' (m, s3) <-? read_field 2 s2 ;;
  ' s4 <-? expect "-" s3 ;;
  ' (d, s5) <-? read_field 2 s4 ;;
  match s5 with
  | EmptyString => make_time_value y m d 0 0 0
  | _ =>
      ' s6 <-? expect "T" s5 ;;
      ' (hour, s7) <-? read_field 2 s6 ;;
      ' s8 <-? expect ":" s7 ;;
      ' (min, s9) <-? read_field 2 s8 ;;
      match s9 with
      | EmptyString => make_time_value y m d hour min 0
      | _ =>
          ' s10 <-? expect ":" s9 ;;
          ' (sec, s11) <-? read_field 2 s10 ;;
          ' _ <-? end_of_text s11 ;;
          make_time_value y m d hour min sec
      end
  end.

(** [M/D/YYYY, h:mm:ss AM] or [PM], the form [toLocaleString] writes. *)
Definition read_en_US (s : string) : option Z :=
  ' (m, s1) <-? read_number s ;;
  ' s2 <-? expect "/" s1 ;;
  ' (d, s3) <-? read_number s2 ;;
  ' s4 <-? expect "/" s3 ;;
  ' (y, s5) <-? read_number s4 ;;
  ' s6 <-? expect ", " s5 ;;
  ' (h12, s7) <-? read_number s6 ;;
  ' s8 <-? expect ":" s7 ;;
  ' (min, s9) <-? read_field 2 s8 ;;
  ' s10 <-? expect ":" s9 ;;
  ' (sec, s11) <-? read_field 2 s10 ;;
  if (1 <=? h12) && (h12 <=? 12) then
    match expect " AM" s11, expect " PM" s11 with
    | Some EmptyString, _ => make_time_value y m d (h12 mod 12) min sec
    | _, Some EmptyString => make_time_value y m d (h12 mod 12 + 12) min sec
    | _, _ => None
    end
  else None.

(** [new Date(value)]. *)
Definition date_new (v : JsVal) : option Z :=
  match v with
  | VDate t => t
  | VNumber n => Some n
  | VNull => Some 0
  | VBool b => Some (if b then 1 else 0)
  | VString s =>
      match read_iso s with
      | Some t => Some t
      | None => read_en_US s
      end
  | VUndefined | VArray _ | VObject _ => None
  end.

(** Offsets from UTC, in minutes, of the zones this host knows. *)
Definition zone_offset (timeZone : string) : option Z :=
  if String.eqb timeZone "UTC" then Some 0
  else if String.eqb timeZone "Asia/Tokyo" then Some 540
  else if String.eqb timeZone "Asia/Kolkata" then Some 330
  else if String.eqb timeZone "Etc/GMT+5" then Some (-300)
  else None.

Definition decimal (n : Z) : string := NilZero.string_of_int (Z.to_int n).

(** [date.toLocaleString("en-US", { timeZone })]: a [RangeError] at a
    zone this host does not know. *)
Definition to_locale_string (t : Z) (timeZone : string) : option string :=
  match zone_offset timeZone with
  | Some offset =>
      let lt := t + offset * 60000 in
      let tod := TimeWithinDay lt in
      let h := HourFromTime tod in
      let h12 := if h mod 12 =? 0 then 12 else h mod 12 in
      let half := if h <? 12 then " AM" else " PM" in
      match civil_from_days (Day lt) with
      | (y, m, d) =>
          Some (decimal m ++ "/" ++ decimal d ++ "/" ++ decimal y ++ ", "
                ++ decimal h12 ++ ":" ++ pad2 (MinFromTime tod) ++ ":"
                ++ pad2 (SecFromTime tod) ++ half)%string
      end
  | None => None
  end.

(** The host whose clock reads [clock]. *)
Definition host (clock : Z) : Host :=
  {| JSON_parse := parse_json;
     Date_new := date_new;
     Date_now := clock;
     toLocaleString := to_locale_string;
     LocalTZA := 0 |}.

(** A text with each apostrophe read as a quotation mark, to write JSON
    texts. *)
Fixpoint quoted (s : string) : string :=
  match s with
  | String c rest =>
      String (if (nat_of_ascii c =? 39)%nat then ascii_of_nat 34 else c)
             (quoted rest)
  | EmptyString => EmptyString
  end.

End Reference.

(** ** Example data *)

(** The reference host at 2024-01-01T00:00:00Z. *)
Definition host2024 : Host := Reference.host 1704067200000.

(** The custodian text of a selected team member. *)
Definition janeDoe : string :=
  Reference.quoted "{'id':'tm_1','name':'Jane Doe'}".

(** A booking with only a name and a description. *)
Definition nameAndDescription : list (string * JsVal) :=
  [("name", VString "Team offsite");
   ("description", VString "Cameras for the offsite")].

(** The same booking with its custodian. *)
Definition withCustodian : list (string * JsVal) :=
  nameAndDescription ++ [("custodian", VString janeDoe)].

(** A booking whose name has one character. *)
Definition shortName : list (string * JsVal) :=
  [("name", VString "T"); ("custodian", VString janeDoe)].

(** A booking whose custodian text is not JSON. *)
Definition malformedCustodian : list (string * JsVal) :=
  [("name", VString "Team offsite"); ("custodian", VString "not-json")].

(** A complete booking: 12 January 2024 09:00 to 13 January 2024 10:00. *)
Definition completeBooking : list (string * JsVal) :=
  [("id", VString "booking_1");
   ("name", VString "Team offsite");
   ("custodian", VString janeDoe);
   ("startDate", VString "2024-01-12T09:00");
   ("endDate", VString "2024-01-13T10:00")].

(** The complete booking without its id. *)
Definition withoutId : list (string * JsVal) := tl completeBooking.

(** A booking that ends two days before it starts. *)
Definition endsBeforeStart : list (string * JsVal) :=
  [("id", VString "booking_1");
   ("name", VString "Team offsite");
   ("custodian", VString janeDoe);
   ("startDate", VString "2024-01-12T09:00");
   ("endDate", VString "2024-01-10T10:00")].

(** The same booking without a name. *)
Definition endsBeforeStartNoName : list (string * JsVal) :=
  [("id", VString "booking_1");
   ("custodian", VString janeDoe);
   ("startDate", VString "2024-01-12T09:00");
   ("endDate", VString "2024-01-10T10:00")].

(** A booking that started the day before the clock of [host2024]. *)
Definition startsInThePast : list (string * JsVal) :=
  [("name", VString "Team offsite");
   ("custodian", VString janeDoe);
   ("startDate", VString "2023-12-31T09:00");
   ("endDate", VString "2024-01-13T10:00")].

(** The hint of a browser in Tokyo, and a hint that names a zone no runtime
    knows. *)
Definition tokyo : option Hints := Some {| timeZone := "Asia/Tokyo" |}.
Definition unknownZone : option Hints :=
  Some {| timeZone := "Mars/Phobos" |}.

(** A booking that starts at 05:00 on the day of the clock of [host2024],
    which reads 00:00: after the ambient instant, and before the instant
    read in Tokyo, where it is 09:00. *)
Definition startsAtFive : list (string * JsVal) :=
  [("name", VString "Team offsite");
   ("custodian", VString janeDoe);
   ("startDate", VString "2024-01-01T05:00");
   ("endDate", VString "2024-01-13T10:00")].

(** A booking without a custodian selected. *)
Definition emptyCustodian : list (string * JsVal) :=
  [("name", VString "Team offsite"); ("custodian", VString EmptyString)].

(** A booking with its dates and without a custodian selected. *)
Definition datedWithoutCustodian : list (string * JsVal) :=
  [("name", VString "Team offsite");
   ("custodian", VString EmptyString);
   ("startDate", VString "2024-01-12T09:00");
   ("endDate", VString "2024-01-13T10:00")].

(** A custodian text that decodes to an object without an id. *)
Definition custodianWithoutId : list (string * JsVal) :=
  [("name", VString "Team offsite");
   ("custodian", VString (Reference.quoted "{'name':'Jane Doe'}"))].

(** A custodian text that decodes to a number. *)
Definition custodianNumber : list (string * JsVal) :=
  [("name", VString "Team offsite"); ("custodian", VString "42")].

(** An asset list whose second element is a number. *)
Definition mixedAssets : list (string * JsVal) :=
  [("name", VString "Team offsite");
   ("assetIds", VArray [VString "asset_1"; VNumber 7]);
   ("custodian", VString janeDoe)].

(** A booking saved with a start date that is not a date. *)
Definition startNotADate : list (string * JsVal) :=
  [("name", VString "Team offsite");
   ("custodian", VString janeDoe);
   ("startDate", VString "tomorrow")].

(** A new booking with every field wrong. *)
Definition allWrong : list (string * JsVal) :=
  [("name", VString "T");
   ("custodian", VString EmptyString);
   ("startDate", VString "2023-12-31T09:00");
   ("endDate", VString "2023-12-30T09:00")].

(** The complete booking as submitted, with the intent of the button. *)
Definition submittedBooking : list (string * JsVal) :=
  completeBooking ++ [("intent", VString "reserve")].

(** The data validated from [submittedBooking]. *)
Definition validatedBooking : JsVal :=
  VObject
    [("name", VString "Team offsite");
     ("custodian",
      VObject [("id", VString "tm_1"); ("name", VString "Jane Doe")]);
     ("startDate", VDate (Some 1705050000000));
     ("endDate", VDate (Some 1705140000000));
     ("id", VString "booking_1")].

(** A new booking whose start moved to 19:30, with the end date the
    start-date input wrote. *)
Definition lateStart : list (string * JsVal) :=
  [("name", VString "Team offsite");
   ("custodian", VString janeDoe);
   ("startDate", VString "2024-01-12T19:30");
   ("endDate", VString "2024-01-12T18:00")].

(** A team of two: Jane has a user account, the other member has none. *)
Definition team : list TeamMember :=
  [{| memberId := "tm_1"; memberUserId := Some "user_jane" |};
   {| memberId := "tm_2"; memberUserId := None |}].

(** The status flags of a draft booking and of a reserved booking. *)
Definition draftFlags : BookingStatusHelpers :=
  {| isDraft := true; isReserved := false; isOngoing := false;
     isOverdue := false; isCompleted := false; isCancelled := false;
     isArchived := false |}.

Definition reservedFlags : BookingStatusHelpers :=
  {| isDraft := false; isReserved := true; isOngoing := false;
     isOverdue := false; isCompleted := false; isCancelled := false;
     isArchived := false |}.

(** A booking with assets that are all free. *)
Definition freeAssets : BookingFlags :=
  {| hasAssets := true; hasUnavailableAssets := false;
     hasCheckedOutAssets := false; hasAlreadyBookedAssets := false;
     hasAssetsInCustody := false |}.

(** A booking with an asset in custody. *)
Definition assetsInCustody : BookingFlags :=
  {| hasAssets := true; hasUnavailableAssets := false;
     hasCheckedOutAssets := false; hasAlreadyBookedAssets := false;
     hasAssetsInCustody := true |}.

(** * Properties *)

(** ** Outcomes of a validation *)

Lemma fails_with_fails c i : fails_with c i -> fails c.
Proof. intros (error & -> & _). now exists error. Qed.

Lemma fails_not_passes c : fails c -> ~ passes c.
Proof. intros (error & ->) (data & H). discriminate. Qed.

Create HintDb zod discriminated.

(** ** The combinators *)

Lemma bind_Return_inv {A B} (c : Completion A) (k : A -> Completion B) b :
  (x <- c ;; k x) = Return b -> exists a, c = Return a /\ k a = Return b.
Proof. destruct c as [a|e]; simpl; [eauto | discriminate]. Qed.

Lemma mergeStatus_valid sts :
  mergeStatus sts = valid -> forall s, In s sts -> s = valid.
Proof.
  induction sts as [|st sts IH]; simpl; [tauto|].
  destruct st; intros H s [<-|Hin]; auto; try discriminate.
  all: destruct (mergeStatus sts); discriminate.
Qed.

Lemma mergeStatus_not_aborted sts :
  (forall s, In s sts -> s <> aborted) -> mergeStatus sts <> aborted.
Proof.
  induction sts as [|st sts IH]; simpl; intros H; [discriminate|].
  assert (mergeStatus sts <> aborted) as Hrest by (apply IH; auto).
  destruct st; [assumption| |].
  2: exfalso; apply (H aborted); [now left|reflexivity].
  destruct (mergeStatus sts); simpl; congruence.
Qed.

Lemma mergeStatus_all_valid sts :
  (forall s, In s sts -> s = valid) -> mergeStatus sts = valid.
Proof.
  induction sts as [|st sts IH]; simpl; intros H; [reflexivity|].
  rewrite (H st) by now left. apply IH; auto.
Qed.

Lemma z_string_min_total min : total (z_string_min min).
Proof.
  intros p v. unfold z_string_min.
  destruct v; try destruct min as [[n msg]|];
    try destruct (Nat.ltb _ _); eauto.
Qed.

Lemma z_string_total : total z_string.
Proof. apply z_string_min_total. Qed.

Lemma z_optional_total inner : total inner -> total (z_optional inner).
Proof. intros H p v. destruct v; simpl; eauto. Qed.

Lemma z_nullable_total inner : total inner -> total (z_nullable inner).
Proof. intros H p v. destruct v; simpl; eauto. Qed.

Lemma parseItems_total elem :
  total elem ->
  forall items p i, exists rs, parseItems elem p i items = Return rs.
Proof.
  intros H items. induction items as [|x items IH]; intros p i; simpl; eauto.
  destruct (H (p ++ [Index i]) x) as [r ->]. simpl.
  destruct (IH p (S i)) as [rs ->]. simpl. eauto.
Qed.

Lemma z_array_total elem : total elem -> total (z_array elem).
Proof.
  intros H p v. unfold z_array. destruct v; eauto.
  destruct (parseItems_total elem H items p 0%nat) as [rs ->]. simpl.
  destruct (mergeStatus _); eauto.
Qed.

Lemma z_refine_total inner check msg ip :
  total inner -> returns check -> total (z_refine inner check msg ip).
Proof.
  intros H Hcheck p v. unfold z_refine. destruct (H p v) as [r ->]. simpl.
  destruct (Hcheck (value r)) as [ok ->]. simpl.
  destruct (status r); try destruct (truthy _); eauto.
Qed.

Lemma endAfterStart_returns : returns endAfterStart.
Proof. intros v. unfold endAfterStart. eauto. Qed.

#[local] Hint Resolve z_string_min_total z_string_total z_optional_total
  z_nullable_total z_array_total z_refine_total endAfterStart_returns : zod.

(** ** Objects *)

Lemma parsePairs_In shape p data : forall prs k ty,
  parsePairs shape p data = Return prs ->
  In (k, ty) shape ->
  exists r, ty (p ++ [Key k]) (get k data) = Return r
            /\ In (mkPair k r (has k data)) prs.
Proof.
  induction shape as [|[k0 ty0] shape IH]; intros prs k ty Hrun Hin.
  - destruct Hin.
  - simpl in Hrun.
    apply bind_Return_inv in Hrun as (r0 & Hr0 & Hrun).
    apply bind_Return_inv in Hrun as (rs & Hrs & Hrun).
    injection Hrun as <-.
    destruct Hin as [Heq|Hin].
    + injection Heq as <- <-. exists r0. split; [assumption | now left].
    + destruct (IH rs k ty Hrs Hin) as (r & Hr & Hpr).
      exists r. split; [assumption | now right].
Qed.

Lemma parsePairs_returns shape p data :
  fields_return shape p data ->
  exists prs, parsePairs shape p data = Return prs.
Proof.
  induction shape as [|[k0 ty0] shape IH]; intros Hall; simpl; eauto.
  destruct (Hall k0 ty0) as [r ->]; [now left|]. simpl.
  destruct IH as [prs ->]; [|simpl; eauto].
  intros k ty Hin. apply Hall. now right.
Qed.

Lemma parsePairs_throws pre k ty post p data e :
  fields_return pre p data ->
  ty (p ++ [Key k]) (get k data) = Throw e ->
  parsePairs (pre ++ (k, ty) :: post) p data = Throw e.
Proof.
  induction pre as [|[k0 ty0] pre IH]; intros Hall Hthrow; simpl.
  - now rewrite Hthrow.
  - destruct (Hall k0 ty0) as [r ->]; [now left|]. simpl.
    rewrite IH; [reflexivity| |assumption].
    intros k' ty' Hin. apply Hall. now right.
Qed.

Lemma z_object_returns shape p data :
  fields_return shape p data ->
  exists R, z_object shape p (VObject data) = Return R.
Proof.
  intros Hall. unfold z_object.
  destruct (parsePairs_returns _ _ _ Hall) as [prs ->]. simpl.
  destruct (mergeStatus _); eauto.
Qed.

Lemma z_object_total shape :
  (forall k ty, In (k, ty) shape -> total ty) -> total (z_object shape).
Proof.
  intros Hall p v. destruct v; try (simpl; eauto; fail).
  apply z_object_returns. intros k ty Hin. apply (Hall k ty Hin).
Qed.

(** What an object parse reports about one of its fields: the field's issues
    are among the object's, and a field that is not valid makes the object
    not valid. *)
Lemma z_object_field shape p data R k ty r :
  z_object shape p (VObject data) = Return R ->
  In (k, ty) shape ->
  ty (p ++ [Key k]) (get k data) = Return r ->
  (status R = valid -> status r = valid)
  /\ (forall i, In i (issues r) -> In i (issues R)).
Proof.
  unfold z_object. intros Hrun Hin Hr.
  apply bind_Return_inv in Hrun as (prs & Hprs & Hrun).
  destruct (parsePairs_In _ _ _ _ _ _ Hprs Hin) as (r' & Hr' & Hpr).
  rewrite Hr in Hr'. injection Hr' as <-.
  set (sts := map (fun pr => status (presult pr)) prs) in *.
  set (iss := flat_map (fun pr => issues (presult pr)) prs) in *.
  assert (In (status r) sts) as Hst.
  { apply in_map_iff. eexists. split; [|exact Hpr]. reflexivity. }
  assert (forall i, In i (issues r) -> In i iss) as Hiss.
  { intros i Hi. apply in_flat_map. eexists. split; [exact Hpr|exact Hi]. }
  destruct (mergeStatus sts) eqn:Hm; injection Hrun as <-; simpl.
  - split; [intros _; now apply (mergeStatus_valid sts Hm)|assumption].
  - split; [discriminate|assumption].
  - split; [discriminate|assumption].
Qed.

Lemma z_object_field_fails shape p data k ty r i :
  fields_return shape p data ->
  In (k, ty) shape ->
  ty (p ++ [Key k]) (get k data) = Return r ->
  status r <> valid ->
  In i (issues r) ->
  exists R, z_object shape p (VObject data) = Return R
            /\ status R <> valid /\ In i (issues R).
Proof.
  intros Hall Hin Hr Hst Hi.
  destruct (z_object_returns _ _ _ Hall) as [R HR].
  destruct (z_object_field _ _ _ _ _ _ _ HR Hin Hr) as [Hv Hiss].
  exists R. repeat split; auto.
Qed.

(** A refinement keeps the failure of the schema it refines. *)
Lemma z_refine_keeps inner check msg ip p v R i :
  returns check ->
  inner p v = Return R ->
  status R <> valid ->
  In i (issues R) ->
  exists R', z_refine inner check msg ip p v = Return R'
             /\ status R' <> valid /\ In i (issues R').
Proof.
  intros Hcheck HR Hst Hi. unfold z_refine. rewrite HR. simpl.
  destruct (Hcheck (value R)) as [ok ->]. simpl.
  destruct (status R) eqn:Hs; [congruence| |].
  - destruct (truthy _); eexists; (split; [reflexivity|]); simpl.
    + rewrite Hs. split; [discriminate|assumption].
    + split; [discriminate|]. apply in_or_app. now left.
  - eexists. split; [reflexivity|]. simpl. split; [discriminate|assumption].
Qed.

Lemma safeParse_fails_with schema data R i :
  schema [] data = Return R ->
  status R <> valid ->
  In i (issues R) ->
  fails_with (safeParse schema data) i.
Proof.
  intros HR Hst Hi. unfold safeParse, fails_with. rewrite HR. simpl.
  destruct (status R); [congruence| |];
    (destruct (issues R) as [|i0 iss] eqn:Hiss; [destruct Hi|]);
    eexists; (split; [reflexivity|assumption]).
Qed.

Lemma parsePairs_keys shape p data : forall prs,
  parsePairs shape p data = Return prs -> map pkey prs = map fst shape.
Proof.
  induction shape as [|[k0 ty0] shape IH]; intros prs Hrun; simpl in Hrun.
  - now injection Hrun as <-.
  - apply bind_Return_inv in Hrun as (r0 & Hr0 & Hrun).
    apply bind_Return_inv in Hrun as (rs & Hrs & Hrun).
    injection Hrun as <-. simpl. f_equal. now apply IH.
Qed.

(** Every pair is the result of a field of the shape. *)
Lemma parsePairs_pairs shape p data : forall prs pr,
  parsePairs shape p data = Return prs ->
  In pr prs ->
  exists ty, In (pkey pr, ty) shape
             /\ ty (p ++ [Key (pkey pr)]) (get (pkey pr) data)
                = Return (presult pr).
Proof.
  induction shape as [|[k0 ty0] shape IH]; intros prs pr Hrun Hin;
    simpl in Hrun.
  - injection Hrun as <-. destruct Hin.
  - apply bind_Return_inv in Hrun as (r0 & Hr0 & Hrun).
    apply bind_Return_inv in Hrun as (rs & Hrs & Hrun).
    injection Hrun as <-. destruct Hin as [<-|Hin].
    + exists ty0. split; [now left | exact Hr0].
    + destruct (IH rs pr Hrs Hin) as (ty & Hty & Hr).
      exists ty. split; [now right | exact Hr].
Qed.

Lemma get_finalObject_absent prs k :
  ~ In k (map pkey prs) -> get k (finalObject prs) = VUndefined.
Proof.
  induction prs as [|pr prs IH]; simpl; intros Hnot; [reflexivity|].
  assert (String.eqb (pkey pr) k = false) as Hk
    by (apply String.eqb_neq; intros Heq; apply Hnot; now left).
  destruct (_ && _); simpl; rewrite ?Hk; apply IH; tauto.
Qed.

(** The object built from the pairs holds, under each key, the value parsed
    for that key. *)
Lemma get_finalObject prs k :
  k <> "__proto__" ->
  NoDup (map pkey prs) ->
  forall pr, In pr prs -> pkey pr = k ->
  get k (finalObject prs) = value (presult pr).
Proof.
  intros Hproto. induction prs as [|pr0 prs IH]; intros Hnd pr Hin Hkey;
    [destruct Hin|].
  simpl in Hnd. apply NoDup_cons_iff in Hnd as [Hnot Hnd]. simpl.
  destruct Hin as [->|Hin].
  - rewrite Hkey.
    assert (String.eqb k "__proto__" = false) as Hp
      by now apply String.eqb_neq.
    rewrite Hp. simpl.
    destruct (negb (is_undefined (value (presult pr))) || alwaysSet pr)
      eqn:Hkeep; simpl.
    + now rewrite String.eqb_refl.
    + rewrite get_finalObject_absent by now rewrite <- Hkey.
      apply orb_false_iff in Hkeep as [Hu _].
      destruct (value (presult pr)); simpl in Hu; try discriminate.
      reflexivity.
  - assert (String.eqb (pkey pr0) k = false) as Hk.
    { apply String.eqb_neq. intros Heq. apply Hnot. rewrite Heq, <- Hkey.
      now apply in_map. }
    destruct (_ && _); simpl; rewrite ?Hk; now apply IH.
Qed.

(** The value of an object parse that did not abort, read at a key of the
    shape. *)
Lemma z_object_value shape p data R k ty r :
  z_object shape p (VObject data) = Return R ->
  status R <> aborted ->
  NoDup (map fst shape) ->
  In (k, ty) shape ->
  k <> "__proto__" ->
  ty (p ++ [Key k]) (get k data) = Return r ->
  prop (value R) k = value r.
Proof.
  unfold z_object. intros Hrun Hst Hnd Hin Hproto Hr.
  apply bind_Return_inv in Hrun as (prs & Hprs & Hrun).
  destruct (parsePairs_In _ _ _ _ _ _ Hprs Hin) as (r' & Hr' & Hpr).
  rewrite Hr in Hr'. injection Hr' as <-.
  rewrite <- (parsePairs_keys _ _ _ _ Hprs) in Hnd.
  destruct (mergeStatus _); injection Hrun as <-; simpl in *;
    try congruence.
  all: now apply (get_finalObject prs k Hproto Hnd _ Hpr).
Qed.

(** An object parse aborts only when a field aborts. *)
Lemma z_object_not_aborted shape p data R :
  z_object shape p (VObject data) = Return R ->
  (forall k ty r, In (k, ty) shape ->
     ty (p ++ [Key k]) (get k data) = Return r -> status r <> aborted) ->
  status R <> aborted.
Proof.
  unfold z_object. intros Hrun Hall.
  apply bind_Return_inv in Hrun as (prs & Hprs & Hrun).
  assert (mergeStatus (map (fun pr => status (presult pr)) prs) <> aborted)
    as Hm.
  { apply mergeStatus_not_aborted. intros s Hs.
    apply in_map_iff in Hs as (pr & <- & Hpr).
    destruct (parsePairs_pairs _ _ _ _ _ Hprs Hpr) as (ty & Hty & Hr).
    now apply (Hall _ _ _ Hty Hr). }
  destruct (mergeStatus _); injection Hrun as <-; simpl; congruence.
Qed.

(** An object parse whose fields are all valid and silent is valid and
    silent. *)
Lemma z_object_valid shape p data R :
  z_object shape p (VObject data) = Return R ->
  (forall k ty r, In (k, ty) shape ->
     ty (p ++ [Key k]) (get k data) = Return r ->
     status r = valid /\ issues r = []) ->
  status R = valid /\ issues R = [].
Proof.
  unfold z_object. intros Hrun Hall.
  apply bind_Return_inv in Hrun as (prs & Hprs & Hrun).
  assert (forall pr, In pr prs ->
            status (presult pr) = valid /\ issues (presult pr) = []) as Hprs'.
  { intros pr Hpr.
    destruct (parsePairs_pairs _ _ _ _ _ Hprs Hpr) as (ty & Hty & Hr).
    now apply (Hall _ _ _ Hty Hr). }
  assert (mergeStatus (map (fun pr => status (presult pr)) prs) = valid)
    as Hm.
  { apply mergeStatus_all_valid. intros s Hs.
    apply in_map_iff in Hs as (pr & <- & Hpr). now apply Hprs'. }
  assert (flat_map (fun pr => issues (presult pr)) prs = []) as Hi.
  { clear - Hprs'. induction prs as [|pr prs IH]; simpl; [reflexivity|].
    rewrite (proj2 (Hprs' pr (or_introl eq_refl))). simpl.
    apply IH. intros pr' Hpr'. apply Hprs'. now right. }
  rewrite Hm, Hi in Hrun. injection Hrun as <-. now split.
Qed.

(** A refinement whose check fails on a parse that did not abort adds its
    issue and leaves the result dirty. *)
Lemma z_refine_rejects inner check msg ip p v R ok :
  inner p v = Return R ->
  status R <> aborted ->
  check (value R) = Return ok ->
  truthy ok = false ->
  z_refine inner check msg ip p v
  = Return (mkParse dirty (value R)
              (issues R ++ [mkIssue custom (p ++ ip) msg])).
Proof.
  intros HR Hst Hcheck Hok. unfold z_refine. rewrite HR. simpl.
  rewrite Hcheck. simpl. rewrite Hok. destruct (status R); congruence.
Qed.

(** A refinement whose check holds returns the inner result. *)
Lemma z_refine_accepts inner check msg ip p v R ok :
  inner p v = Return R ->
  status R <> aborted ->
  check (value R) = Return ok ->
  truthy ok = true ->
  z_refine inner check msg ip p v = Return R.
Proof.
  intros HR Hst Hcheck Hok. unfold z_refine. rewrite HR. simpl.
  rewrite Hcheck. simpl. rewrite Hok. destruct (status R); congruence.
Qed.

(** What a refinement returned, by the status of the schema it refines. *)
Lemma z_refine_inv inner check msg ip p v R' :
  z_refine inner check msg ip p v = Return R' ->
  exists R,
    inner p v = Return R
    /\ ((status R = aborted /\ R' = INVALID (issues R))
        \/ (status R <> aborted
            /\ exists ok,
                 check (value R) = Return ok
                 /\ R' = if truthy ok then R
                         else mkParse dirty (value R)
                                (issues R
                                 ++ [mkIssue custom (p ++ ip) msg]))).
Proof.
  unfold z_refine. intros H.
  apply bind_Return_inv in H as (R & HR & H). exists R.
  split; [exact HR|].
  destruct (status R) eqn:Hs.
  - right. split; [discriminate|].
    apply bind_Return_inv in H as (ok & Hok & H). exists ok.
    split; [exact Hok|]. destruct (truthy ok); now injection H as <-.
  - right. split; [discriminate|].
    apply bind_Return_inv in H as (ok & Hok & H). exists ok.
    split; [exact Hok|]. destruct (truthy ok); now injection H as <-.
  - left. split; [reflexivity|]. now injection H as <-.
Qed.

Lemma z_object_field_returns shape p data R k ty :
  z_object shape p (VObject data) = Return R ->
  In (k, ty) shape ->
  exists r, ty (p ++ [Key k]) (get k data) = Return r.
Proof.
  unfold z_object. intros Hrun Hin.
  apply bind_Return_inv in Hrun as (prs & Hprs & _).
  destruct (parsePairs_In _ _ _ _ _ _ Hprs Hin) as (r & Hr & _). eauto.
Qed.

(** ** Valid fields *)

Lemma parseItems_strings_inv p : forall items i rs,
  parseItems z_string p i items = Return rs ->
  mergeStatus (map status rs) = valid ->
  forallb is_string items = true.
Proof.
  induction items as [|x items IH]; intros i rs Hrun Hm; [reflexivity|].
  simpl in Hrun.
  apply bind_Return_inv in Hrun as (r0 & Hr0 & Hrun).
  apply bind_Return_inv in Hrun as (rs' & Hrs & Hrun).
  injection Hrun as <-. simpl in Hm.
  destruct x; injection Hr0 as <-; simpl in Hm; try discriminate.
  simpl. now apply (IH (S i) rs').
Qed.

Lemma name_valid_inv p v r :
  z_string_min (Some (2%nat, "Name is required")) p v = Return r ->
  status r = valid -> name_ok v = true.
Proof.
  unfold z_string_min, name_ok.
  destruct v; try (intros [= <-]; discriminate).
  destruct (Nat.ltb_spec (String.length s) 2); intros [= <-];
    [discriminate|]. intros _. now apply Nat.leb_le.
Qed.

Lemma assetIds_valid_inv p v r :
  z_optional (z_array z_string) p v = Return r ->
  status r = valid -> opt_string_array v = true.
Proof.
  destruct v; simpl; try (intros [= <-]; discriminate); [reflexivity|].
  intros Hrun Hst. apply bind_Return_inv in Hrun as (rs & Hrs & Hrun).
  apply (parseItems_strings_inv p items 0%nat rs Hrs).
  destruct (mergeStatus (map status rs)); injection Hrun as <-;
    simpl in Hst; congruence.
Qed.

Lemma description_valid_inv p v r :
  z_optional z_string p v = Return r ->
  status r = valid -> opt_string v = true.
Proof. destruct v; simpl; intros [= <-]; auto; discriminate. Qed.

Lemma id_valid_inv p v r :
  z_string p v = Return r -> status r = valid -> is_string v = true.
Proof. destruct v; simpl; intros [= <-]; auto; discriminate. Qed.

Lemma z_string_min_value min p v r :
  z_string_min min p v = Return r -> status r <> aborted -> value r = v.
Proof.
  unfold z_string_min. destruct v; try (intros [= <-]; simpl; congruence).
  destruct min as [[n msg]|]; [destruct (Nat.ltb _ _)|];
    intros [= <-]; reflexivity.
Qed.

Lemma userId_valid_inv p v r :
  z_nullable (z_optional z_string) p v = Return r ->
  status r = valid ->
  value r = v
  /\ match v with
     | VUndefined | VNull | VString _ => true
     | _ => false
     end = true.
Proof. destruct v; simpl; intros [= <-]; auto; discriminate. Qed.

(** ** The booking schemas *)

Section BookingProperties.

Variable host : Host.

Lemma baseShape_eq :
  baseShape host
  = commonFields host
    ++ [("startDate", z_optional (z_coerce_date host));
        ("endDate", z_optional (z_coerce_date host))].
Proof. reflexivity. Qed.

Lemma fullShape_eq hints :
  fullShape host hints
  = commonFields host
    ++ [("startDate", startDateSchema host hints);
        ("endDate", z_coerce_date host)].
Proof. reflexivity. Qed.

Lemma fullShapeWithId_eq hints :
  extend (fullShape host hints) [("id", z_string)]
  = commonFields host
    ++ [("startDate", startDateSchema host hints);
        ("endDate", z_coerce_date host);
        ("id", z_string)].
Proof. reflexivity. Qed.

Lemma z_coerce_date_total : total (z_coerce_date host).
Proof. intros p v. unfold z_coerce_date. destruct (Date_new host v); eauto. Qed.

(** *** The current instant *)

Lemma now_instant hints n :
  current_instant host hints n <-> now host hints = Return n.
Proof.
  unfold current_instant, now, truthy. destruct hints as [h|].
  - destruct (String.eqb (timeZone h) EmptyString); simpl.
    + split; [intros ->; reflexivity | now intros [= <-]].
    + destruct (toLocaleString host (Date_now host) (timeZone h))
        as [text|].
      * split; [intros (t & [= <-] & ->); reflexivity | intros [= <-]; eauto].
      * split; [intros (t & H & _); discriminate H | discriminate].
  - split; [intros ->; reflexivity | now intros [= <-]].
Qed.

Lemma zone_known_instant hints :
  zone_known host hints = true <-> exists n, current_instant host hints n.
Proof.
  unfold current_instant, zone_known. destruct hints as [h|]; [|split; eauto].
  destruct (String.eqb (timeZone h) EmptyString); simpl; [split; eauto|].
  destruct (toLocaleString host (Date_now host) (timeZone h)) as [text|].
  - split; eauto.
  - split; [discriminate | intros (n & t & H & _); discriminate H].
Qed.

Lemma now_unknown hints :
  zone_known host hints = false -> now host hints = Throw RangeError.
Proof.
  unfold zone_known, now, truthy. destruct hints as [h|]; [|discriminate].
  destruct (String.eqb (timeZone h) EmptyString); simpl; [discriminate|].
  now destruct (toLocaleString host (Date_now host) (timeZone h)).
Qed.

Lemma current_instant_known hints n :
  current_instant host hints n -> zone_known host hints = true.
Proof. intros H. apply zone_known_instant. eauto. Qed.

(** The start-date field returns when the zone of the hint is known, and
    when the value does not coerce to a date, the refinement being skipped;
    it throws otherwise. *)
Lemma startDateSchema_returns hints p v :
  zone_known host hints = true \/ Date_new host v = None ->
  exists r, startDateSchema host hints p v = Return r.
Proof.
  unfold startDateSchema, z_refine, z_coerce_date.
  destruct (Date_new host v) as [s|]; [|simpl; eauto].
  intros [Hk|Hn]; [|discriminate].
  apply zone_known_instant in Hk as [n Hn]. apply now_instant in Hn.
  cbn [bind status value OK]. rewrite Hn. cbn [bind].
  match goal with
  | |- exists r, (if ?c then _ else _) = _ => destruct c; eauto
  end.
Qed.

Lemma startDateSchema_throws hints p v s :
  zone_known host hints = false ->
  Date_new host v = Some s ->
  startDateSchema host hints p v = Throw RangeError.
Proof.
  intros Hk Hs. unfold startDateSchema, z_refine, z_coerce_date.
  rewrite Hs. cbn [bind status value OK]. now rewrite (now_unknown _ Hk).
Qed.

Lemma startDateSchema_total hints :
  zone_known host hints = true -> total (startDateSchema host hints).
Proof. intros Hk p v. apply startDateSchema_returns. now left. Qed.

Lemma total_fields_return shape p data :
  (forall k ty, In (k, ty) shape -> total ty) -> fields_return shape p data.
Proof. intros H k ty Hin. apply (H k ty Hin). Qed.

Lemma validates_both_dates_refines action status :
  validates_both_dates action status
  <-> refines_start_date action status = true.
Proof.
  unfold validates_both_dates, refines_start_date. split.
  - intros [-> | [-> | [-> ->]]]; reflexivity.
  - destruct (String.eqb_spec action "new") as [->|_]; [now left|].
    destruct (String.eqb_spec action "reserve") as [->|_];
      [right; now left|].
    destruct (String.eqb_spec action "save") as [->|_]; [|discriminate].
    destruct status as [[]|]; try discriminate. intros _. right. now right.
Qed.

#[local] Hint Resolve z_coerce_date_total startDateSchema_total : zod.

Lemma custodianObject_total :
  total (z_object [("id", z_string); ("name", z_string);
                   ("userId", z_nullable (z_optional z_string))]).
Proof.
  apply z_object_total. intros k ty Hin. simpl in Hin.
  repeat destruct Hin as [Heq|Hin]; try injection Heq as <- <-;
    auto with zod.
  destruct Hin.
Qed.

(** ** The custodian field *)

Lemma custodian_empty p :
  custodianSchema host p (VString EmptyString) =
  Return (mkParse dirty z_NEVER
            [mkIssue custom p "Please select a custodian"]).
Proof. reflexivity. Qed.

Lemma custodian_undefined p :
  custodianSchema host p VUndefined =
  Return (INVALID [mkIssue invalid_type p "Required"]).
Proof. reflexivity. Qed.

Lemma custodian_malformed p text :
  text <> EmptyString ->
  JSON_parse host text = None ->
  custodianSchema host p (VString text) = Throw SyntaxError.
Proof.
  intros Hne Hparse. apply String.eqb_neq in Hne.
  unfold custodianSchema, z_pipe, z_transform. simpl.
  rewrite Hne, Hparse. now rewrite andb_false_r.
Qed.

Lemma custodian_returns p v :
  custodian_decodes host v = true ->
  exists r, custodianSchema host p v = Return r.
Proof.
  intros Hdec. unfold custodianSchema, z_pipe, z_transform.
  destruct v; simpl; eauto.
  unfold custodian_decodes in Hdec.
  destruct (String.eqb s EmptyString); simpl in *; eauto.
  destruct (JSON_parse host s) as [j|]; [|discriminate]. simpl.
  destruct (custodianObject_total p j) as [r ->]. simpl. eauto.
Qed.

(** ** The selector *)

(** The three schemas of the selector: a complete one where the rule set
    refines the start date, the base schema elsewhere. *)
Lemma BookingFormSchema_cases hints action status schema :
  BookingFormSchema host hints action status = Return schema ->
  (refines_start_date action status = true
   /\ (schema = schemaForNew host hints
       \/ schema = fullSchemaWithId host hints))
  \/ (refines_start_date action status = false
      /\ schema = baseSchema host).
Proof.
  unfold BookingFormSchema, refines_start_date.
  destruct (String.eqb action "new"); [intros [= <-]; auto|].
  destruct (String.eqb action "reserve"); [intros [= <-]; auto|].
  destruct (String.eqb action "save"); simpl.
  - destruct status as [[]|]; simpl; intros [= <-]; auto.
  - intros [= <-]; auto.
Qed.

(** The fields a complete schema adds return on the records on which the
    start-date refinement does not throw. *)
Lemma complete_fields_return hints action status rest data :
  refines_start_date action status = true ->
  start_date_throws host hints action status (VObject data) = false ->
  (forall k ty, In (k, ty) rest ->
     ty = startDateSchema host hints /\ k = "startDate" \/ total ty) ->
  fields_return rest [] data.
Proof.
  intros Href Hthrows Hrest k ty Hin.
  destruct (Hrest k ty Hin) as [[-> ->]|Htotal]; [|apply Htotal].
  apply startDateSchema_returns.
  unfold start_date_throws in Hthrows. rewrite Href in Hthrows.
  simpl in Hthrows.
  destruct (zone_known host hints); [now left|right].
  simpl in Hthrows.
  now destruct (Date_new host (get "startDate" data)).
Qed.

Lemma BookingFormSchema_selected hints action status schema :
  BookingFormSchema host hints action status = Return schema ->
  exists rest,
    (forall data,
        start_date_throws host hints action status (VObject data) = false ->
        fields_return rest [] data)
    /\ selected schema (commonFields host ++ rest).
Proof.
  intros H. apply BookingFormSchema_cases in H as [[Href [->| ->]]|[_ ->]].
  - eexists. split; [|apply selected_refined; unfold schemaForNew;
                      now rewrite fullShape_eq].
    intros data Hthrows.
    apply (complete_fields_return hints action status _ _ Href Hthrows).
    intros k ty [[= <- <-]|[[= <- <-]|[]]]; auto with zod.
  - eexists. split; [|apply selected_refined; unfold fullSchemaWithId;
                      now rewrite fullShapeWithId_eq].
    intros data Hthrows.
    apply (complete_fields_return hints action status _ _ Href Hthrows).
    intros k ty [[= <- <-]|[[= <- <-]|[[= <- <-]|[]]]]; auto with zod.
  - eexists. split; [|apply selected_object; unfold baseSchema;
                      now rewrite baseShape_eq].
    intros data _. apply total_fields_return.
    intros k ty [[= <- <-]|[[= <- <-]|[]]]; auto with zod.
Qed.

Lemma commonFields_return p data :
  custodian_decodes host (get "custodian" data) = true ->
  fields_return (commonFields host) p data.
Proof.
  intros Hdec k ty [[= <- <-]|[[= <- <-]|[[= <- <-]|[[= <- <-]|[]]]]].
  - apply z_string_min_total.
  - apply z_optional_total, z_array_total, z_string_total.
  - apply z_optional_total, z_string_total.
  - now apply custodian_returns.
Qed.

Lemma selected_fields_return rest p data :
  fields_return rest p data ->
  custodian_decodes host (get "custodian" data) = true ->
  fields_return (commonFields host ++ rest) p data.
Proof.
  intros Hrest Hdec k ty Hin. apply in_app_or in Hin as [Hin|Hin].
  - now apply commonFields_return.
  - apply (Hrest k ty Hin).
Qed.

(** A field that fails makes the validation fail with the field's issues,
    on every record whose fields return. *)
Lemma selected_field_fails schema rest data k ty r i :
  selected schema (commonFields host ++ rest) ->
  fields_return rest [] data ->
  custodian_decodes host (get "custodian" data) = true ->
  In (k, ty) (commonFields host ++ rest) ->
  ty [Key k] (get k data) = Return r ->
  status r <> valid ->
  In i (issues r) ->
  fails_with (safeParse schema (VObject data)) i.
Proof.
  intros Hsel Hrest Hdec Hin Hr Hst Hi.
  destruct (z_object_field_fails (commonFields host ++ rest) [] data k ty r i)
    as (R & HR & HstR & HiR); auto using selected_fields_return.
  destruct Hsel as [-> | ->].
  - now apply (safeParse_fails_with _ _ R).
  - destruct (z_refine_keeps _ endAfterStart endDateMessage [Key "endDate"]
                _ _ R i endAfterStart_returns HR HstR HiR)
      as (R' & HR' & HstR' & HiR').
    now apply (safeParse_fails_with _ _ R').
Qed.

(** A field that is not valid keeps the validation from passing, on every
    record. *)
Lemma selected_field_never_passes schema shape data k ty :
  selected schema shape ->
  In (k, ty) shape ->
  (forall r, ty [Key k] (get k data) = Return r -> status r <> valid) ->
  ~ passes (safeParse schema (VObject data)).
Proof.
  intros Hsel Hin Hfield (d & Hpass). unfold safeParse in Hpass.
  apply bind_Return_inv in Hpass as (R' & HR' & Hpass).
  assert (status R' = valid) as Hvalid
    by (destruct (status R'); [reflexivity|..];
        destruct (issues R'); discriminate).
  assert (forall R, z_object shape [] (VObject data) = Return R ->
                    status R <> valid) as Hobj.
  { intros R HR Hst.
    destruct (z_object_field_returns _ _ _ _ k ty HR Hin) as [r Hr].
    apply (Hfield r Hr).
    now apply (z_object_field _ _ _ _ _ _ _ HR Hin Hr). }
  destruct Hsel as [-> | ->].
  - now apply (Hobj R').
  - apply z_refine_inv in HR'
      as (R & HR & [[Hst ->]|(Hst & ok & _ & ->)]); [discriminate|].
    apply (Hobj R HR).
    destruct (truthy ok); [exact Hvalid | discriminate].
Qed.

(** A custodian text that [JSON.parse] rejects makes the parse throw. *)
Lemma selected_custodian_throws schema rest data text :
  selected schema (commonFields host ++ rest) ->
  get "custodian" data = VString text ->
  text <> EmptyString ->
  JSON_parse host text = None ->
  safeParse schema (VObject data) = Throw SyntaxError.
Proof.
  intros Hsel Hget Hne Hparse.
  assert (parsePairs (commonFields host ++ rest) [] data
          = Throw SyntaxError) as Hp.
  { change (commonFields host ++ rest) with
      ([("name", z_string_min (Some (2%nat, "Name is required")));
        ("assetIds", z_optional (z_array z_string));
        ("description", z_optional z_string)]
       ++ ("custodian", custodianSchema host) :: rest).
    apply parsePairs_throws.
    - intros k ty [[= <- <-]|[[= <- <-]|[[= <- <-]|[]]]].
      + apply z_string_min_total.
      + apply z_optional_total, z_array_total, z_string_total.
      + apply z_optional_total, z_string_total.
    - rewrite Hget. now apply custodian_malformed. }
  destruct Hsel as [-> | ->]; unfold safeParse, z_refine, z_object;
    now rewrite Hp.
Qed.

(** ** Well-typed fields *)

Lemma custodian_ok_decodes v :
  custodian_ok host v = true -> custodian_decodes host v = true.
Proof.
  destruct v; simpl; try reflexivity.
  destruct (JSON_parse host s); rewrite ?andb_false_r; try discriminate.
  intros _. apply orb_true_r.
Qed.

Lemma name_result p v r :
  is_string v = true ->
  z_string_min (Some (2%nat, "Name is required")) p v = Return r ->
  status r <> aborted
  /\ (name_ok v = true -> status r = valid /\ issues r = []).
Proof.
  destruct v; try discriminate. intros _. unfold z_string_min, name_ok.
  destruct (Nat.ltb_spec (String.length s) 2) as [Hlt|Hge];
    intros [= <-]; (split; [discriminate|]).
  - intros Hok. apply Nat.leb_le in Hok. lia.
  - now split.
Qed.

Lemma parseItems_strings p : forall items i,
  forallb is_string items = true ->
  parseItems z_string p i items = Return (map OK items).
Proof.
  induction items as [|x items IH]; intros i Hall; [reflexivity|].
  simpl in Hall. apply andb_true_iff in Hall as [Hx Hall].
  destruct x; try discriminate. simpl. now rewrite IH.
Qed.

Lemma assetIds_result p v r :
  opt_string_array v = true ->
  z_optional (z_array z_string) p v = Return r ->
  status r = valid /\ issues r = [].
Proof.
  destruct v; try discriminate; simpl.
  - intros _ [= <-]. now split.
  - intros Hall. rewrite (parseItems_strings p items 0%nat Hall). simpl.
    assert (mergeStatus (map status (map OK items)) = valid) as ->
      by (clear; induction items; simpl; auto).
    assert (flat_map issues (map OK items) = []) as ->
      by (clear; induction items; simpl; auto).
    intros [= <-]. now split.
Qed.

Lemma description_result p v r :
  opt_string v = true ->
  z_optional z_string p v = Return r ->
  status r = valid /\ issues r = [].
Proof. destruct v; try discriminate; intros _ [= <-]; now split. Qed.

Lemma id_result p v r :
  is_string v = true ->
  z_string p v = Return r ->
  status r = valid /\ issues r = [].
Proof. destruct v; try discriminate; intros _ [= <-]; now split. Qed.

Lemma custodian_ok_result p v r :
  custodian_ok host v = true ->
  custodianSchema host p v = Return r ->
  status r = valid /\ issues r = [].
Proof.
  destruct v; try discriminate. unfold custodian_ok.
  destruct (String.eqb s EmptyString) eqn:Hs; [discriminate|].
  destruct (JSON_parse host s) as [j|] eqn:Hj; [|discriminate].
  destruct j; try discriminate. unfold custodian_payload.
  destruct (get "id" props) eqn:Hid; try discriminate.
  destruct (get "name" props) eqn:Hname; try discriminate.
  destruct (get "userId" props) eqn:Huid; try discriminate; intros _.
  all: unfold custodianSchema, z_pipe, z_transform; simpl.
  all: rewrite Hs, Hj; simpl; rewrite Hid, Hname, Huid; simpl.
  all: intros [= <-]; now split.
Qed.

Lemma date_result p v t r :
  Date_new host v = Some t ->
  z_coerce_date host p v = Return r ->
  r = OK (VDate (Some t)).
Proof. unfold z_coerce_date. intros ->. now intros [= <-]. Qed.

Lemma optional_date_result p v r :
  (v = VUndefined \/ exists t, Date_new host v = Some t) ->
  z_optional (z_coerce_date host) p v = Return r ->
  status r = valid /\ issues r = [].
Proof.
  intros [-> | [t Ht]].
  - intros [= <-]. now split.
  - destruct v; simpl; [intros [= <-]; now split|..];
      intros Hr; apply (date_result _ _ t) in Hr as ->; auto.
Qed.

(** The start-date field of the complete schemas, on a value that coerces
    to the date [s], when the current instant is [n]. *)
Lemma startDate_result hints n p v s r :
  current_instant host hints n ->
  Date_new host v = Some s ->
  startDateSchema host hints p v = Return r ->
  value r = VDate (Some s)
  /\ (time_gt (Some s) n = true -> status r = valid /\ issues r = [])
  /\ (time_gt (Some s) n = false ->
      r = mkParse dirty (VDate (Some s))
            [mkIssue custom p "Start date must be in the future"]).
Proof.
  intros Hn Hs. apply now_instant in Hn.
  unfold startDateSchema, z_refine, z_coerce_date.
  rewrite Hs. cbn [bind status value issues OK]. rewrite Hn.
  cbn [bind truthy js_gt].
  destruct (time_gt (Some s) n); intros [= <-]; simpl.
  - repeat split; auto. discriminate.
  - repeat split; try discriminate. now rewrite app_nil_r.
Qed.

(** When the start-date field returns on a value that coerces to a date, the
    refinement ran: the current instant was read. *)
Lemma startDate_runs hints p v s r :
  Date_new host v = Some s ->
  startDateSchema host hints p v = Return r ->
  exists n, current_instant host hints n.
Proof.
  intros Hs Hr. apply zone_known_instant.
  destruct (zone_known host hints) eqn:Hk; [reflexivity|].
  rewrite (startDateSchema_throws hints p v s Hk Hs) in Hr. discriminate Hr.
Qed.

Lemma startDate_value hints p v s r :
  Date_new host v = Some s ->
  startDateSchema host hints p v = Return r ->
  value r = VDate (Some s).
Proof.
  intros Hs Hr. destruct (startDate_runs hints p v s r Hs Hr) as [n Hn].
  now destruct (startDate_result hints n p v s r Hn Hs Hr).
Qed.

Lemma current_instant_unique hints n n' :
  current_instant host hints n -> current_instant host hints n' -> n = n'.
Proof.
  intros H H'. apply now_instant in H, H'. rewrite H in H'.
  now injection H' as <-.
Qed.

(** ** The complete schemas *)

Lemma fullSchemaWithId_eq hints :
  fullSchemaWithId host hints
  = z_refine (z_object (completeShape host hints true))
      endAfterStart endDateMessage [Key "endDate"].
Proof. reflexivity. Qed.

Lemma custodian_given_decodes v :
  custodian_given host v = true -> custodian_decodes host v = true.
Proof.
  unfold custodian_given. intros H. apply orb_true_iff in H as [H|H].
  - now apply custodian_ok_decodes.
  - destruct v; try discriminate. simpl. now rewrite H.
Qed.

Lemma custodian_given_result p v r :
  custodian_given host v = true ->
  custodianSchema host p v = Return r ->
  status r <> aborted.
Proof.
  unfold custodian_given. intros H Hr. apply orb_true_iff in H as [H|H].
  - destruct (custodian_ok_result p v r H Hr) as [-> _]. discriminate.
  - destruct v; try discriminate. apply String.eqb_eq in H as ->.
    rewrite custodian_empty in Hr. injection Hr as <-. discriminate.
Qed.

Ltac field_cases Hin :=
  unfold completeShape, commonFields in Hin; simpl in Hin;
  repeat (destruct Hin as [Hin|Hin]; [injection Hin as <- <-|]);
  [..|destruct Hin].

Lemma completeShape_NoDup hints withId :
  NoDup (map fst (completeShape host hints withId)).
Proof.
  destruct withId; simpl;
    repeat (apply NoDup_cons; [simpl; intuition discriminate|]);
    apply NoDup_nil.
Qed.

(** The object parse of a well-typed record whose dates coerce to [s] and
    [e]: it does not abort, its value holds the two dates, and it is valid
    and silent when the name and the custodian validate and the start is in
    the future. *)
Lemma completeShape_parse hints n withId data s e :
  current_instant host hints n ->
  well_typed host withId data = true ->
  Date_new host (get "startDate" data) = Some s ->
  Date_new host (get "endDate" data) = Some e ->
  exists R,
    z_object (completeShape host hints withId) [] (VObject data) = Return R
    /\ status R <> aborted
    /\ prop (value R) "startDate" = VDate (Some s)
    /\ prop (value R) "endDate" = VDate (Some e)
    /\ (name_ok (get "name" data) = true ->
        custodian_ok host (get "custodian" data) = true ->
        time_gt (Some s) n = true ->
        status R = valid /\ issues R = []).
Proof.
  intros Hn Hwt Hs He. unfold well_typed in Hwt.
  pose proof (current_instant_known hints n Hn) as Hk.
  apply andb_true_iff in Hwt as [Hwt Hid].
  apply andb_true_iff in Hwt as [Hwt Hcust].
  apply andb_true_iff in Hwt as [Hwt Hdesc].
  apply andb_true_iff in Hwt as [Hname Hassets].
  assert (fields_return (completeShape host hints withId) [] data) as Hret.
  { apply selected_fields_return; [|now apply custodian_given_decodes].
    apply total_fields_return.
    intros k ty Hin. destruct withId; simpl in Hin;
      repeat (destruct Hin as [Hin|Hin]; [injection Hin as <- <-|]);
      auto with zod; destruct Hin. }
  destruct (z_object_returns _ _ _ Hret) as [R HR].
  assert (status R <> aborted) as Hst.
  { apply (z_object_not_aborted _ _ _ _ HR). intros k ty r Hin Hr.
    destruct withId; field_cases Hin; simpl in Hr.
    all: try (now apply (name_result _ _ _ Hname) in Hr).
    all: try (apply (assetIds_result _ _ _ Hassets) in Hr as [-> _];
              discriminate).
    all: try (apply (description_result _ _ _ Hdesc) in Hr as [-> _];
              discriminate).
    all: try (now apply (custodian_given_result _ _ _ Hcust) in Hr).
    all: try (apply (startDate_result _ _ _ _ _ _ Hn Hs) in Hr
                as (_ & Hv & Hd);
              destruct (time_gt (Some s) n);
              [destruct Hv as [-> _]; auto | rewrite Hd; auto];
              discriminate).
    all: try (apply (date_result _ _ _ _ He) in Hr as ->; discriminate).
    apply (id_result _ _ _ Hid) in Hr as [-> _]. discriminate. }
  exists R. split; [assumption|]. split; [assumption|].
  split; [|split].
  - destruct (Hret "startDate" (startDateSchema host hints)) as [r Hr].
    { destruct withId; simpl; tauto. }
    rewrite (z_object_value _ _ _ _ "startDate" (startDateSchema host hints)
               r HR Hst (completeShape_NoDup hints withId));
      try discriminate.
    + now apply (startDate_value _ _ _ _ _ Hs) in Hr as ->.
    + destruct withId; simpl; tauto.
    + assumption.
  - destruct (Hret "endDate" (z_coerce_date host)) as [r Hr].
    { destruct withId; simpl; tauto. }
    rewrite (z_object_value _ _ _ _ "endDate" (z_coerce_date host)
               r HR Hst (completeShape_NoDup hints withId));
      try discriminate.
    + now apply (date_result _ _ _ _ He) in Hr as ->.
    + destruct withId; simpl; tauto.
    + assumption.
  - intros Hnameok Hcustok Hfuture.
    apply (z_object_valid _ _ _ _ HR). intros k ty r Hin Hr.
    destruct withId; field_cases Hin; simpl in Hr.
    all: try (now apply (name_result _ _ _ Hname) in Hr as [_ Hr]; auto).
    all: try (now apply (assetIds_result _ _ _ Hassets) in Hr).
    all: try (now apply (description_result _ _ _ Hdesc) in Hr).
    all: try (now apply (custodian_ok_result _ _ _ Hcustok) in Hr).
    all: try (now apply (startDate_result _ _ _ _ _ _ Hn Hs) in Hr
                as (_ & Hv & _); auto).
    all: try (apply (date_result _ _ _ _ He) in Hr as ->; now split).
    now apply (id_result _ _ _ Hid) in Hr.
Qed.

(** ** The base schema *)

Lemma opt_date_result p v r :
  opt_date host v = true ->
  z_optional (z_coerce_date host) p v = Return r ->
  status r = valid /\ issues r = [].
Proof.
  intros H. apply optional_date_result.
  destruct v; [now left|..]; right; simpl in H;
    (destruct (Date_new host _) as [t'|]; [now exists t'|discriminate]).
Qed.

(** The base schema accepts a record whose name and custodian validate and
    whose other fields are absent or well typed, whatever its dates. *)
Lemma baseSchema_accepts data :
  name_ok (get "name" data) = true ->
  opt_string_array (get "assetIds" data) = true ->
  opt_string (get "description" data) = true ->
  custodian_ok host (get "custodian" data) = true ->
  opt_date host (get "startDate" data) = true ->
  opt_date host (get "endDate" data) = true ->
  passes (safeParse (baseSchema host) (VObject data)).
Proof.
  intros Hname Hassets Hdesc Hcust Hstart Hend.
  assert (is_string (get "name" data) = true) as Hstr
    by (destruct (get "name" data); auto; discriminate).
  assert (fields_return (baseShape host) [] data) as Hret.
  { rewrite baseShape_eq.
    apply selected_fields_return; [|now apply custodian_ok_decodes].
    apply total_fields_return.
    intros k ty [[= <- <-]|[[= <- <-]|[]]]; auto with zod. }
  destruct (z_object_returns _ _ _ Hret) as [R HR].
  assert (status R = valid /\ issues R = []) as [Hst Hiss].
  { apply (z_object_valid _ _ _ _ HR). intros k ty r Hin Hr.
    unfold baseShape in Hin. simpl in Hin.
    repeat (destruct Hin as [Hin|Hin]; [injection Hin as <- <-|]);
      [..|destruct Hin]; simpl in Hr.
    - now apply (name_result _ _ _ Hstr) in Hr as [_ Hr]; auto.
    - now apply (assetIds_result _ _ _ Hassets) in Hr.
    - now apply (description_result _ _ _ Hdesc) in Hr.
    - now apply (custodian_ok_result _ _ _ Hcust) in Hr.
    - now apply (opt_date_result _ _ _ Hstart) in Hr.
    - now apply (opt_date_result _ _ _ Hend) in Hr. }
  unfold passes, safeParse, baseSchema. rewrite HR. simpl. rewrite Hst. eauto.
Qed.

(** ** Dates of the complete schemas *)

Lemma endAfterStart_dates o s e :
  prop o "startDate" = VDate (Some s) ->
  prop o "endDate" = VDate (Some e) ->
  endAfterStart o = Return (VBool (e >? s)).
Proof. unfold endAfterStart. intros -> ->. reflexivity. Qed.

(** Whatever the other fields are, an object parse of a complete shape that
    did not abort holds the two coerced dates. *)
Lemma completeShape_dates hints withId data R s e :
  z_object (completeShape host hints withId) [] (VObject data) = Return R ->
  status R <> aborted ->
  Date_new host (get "startDate" data) = Some s ->
  Date_new host (get "endDate" data) = Some e ->
  endAfterStart (value R) = Return (VBool (e >? s)).
Proof.
  intros HR Hst Hs He. apply endAfterStart_dates.
  - destruct (z_object_field_returns _ _ _ _ "startDate"
                (startDateSchema host hints) HR) as [r Hr].
    { destruct withId; simpl; tauto. }
    rewrite (z_object_value _ _ _ _ "startDate" (startDateSchema host hints)
               r HR Hst (completeShape_NoDup hints withId));
      try discriminate.
    + now apply (startDate_value _ _ _ _ _ Hs) in Hr as ->.
    + destruct withId; simpl; tauto.
    + assumption.
  - destruct (z_object_field_returns _ _ _ _ "endDate"
                (z_coerce_date host) HR) as [r Hr].
    { destruct withId; simpl; tauto. }
    rewrite (z_object_value _ _ _ _ "endDate" (z_coerce_date host)
               r HR Hst (completeShape_NoDup hints withId));
      try discriminate.
    + now apply (date_result _ _ _ _ He) in Hr as ->.
    + destruct withId; simpl; tauto.
    + assumption.
Qed.

(** The complete schema never accepts an end that is not after the start. *)
Lemma complete_rejects_order hints withId data s e :
  Date_new host (get "startDate" data) = Some s ->
  Date_new host (get "endDate" data) = Some e ->
  e <= s ->
  ~ passes (safeParse
              (z_refine (z_object (completeShape host hints withId))
                 endAfterStart endDateMessage [Key "endDate"])
              (VObject data)).
Proof.
  intros Hs He Hle (d & Hpass). unfold safeParse in Hpass.
  apply bind_Return_inv in Hpass as (R' & HR' & Hpass).
  assert ((e >? s) = false) as Hgt
    by (rewrite Z.gtb_ltb; apply Z.ltb_ge; exact Hle).
  apply z_refine_inv in HR'
    as (R & HR & [[Hst ->]|(Hst & ok & Hok & ->)]).
  - simpl in Hpass. destruct (issues R); discriminate.
  - rewrite (completeShape_dates _ _ _ _ s e HR Hst Hs He) in Hok.
    injection Hok as <-. simpl in Hpass. rewrite Hgt in Hpass.
    simpl in Hpass. destruct (issues R); discriminate.
Qed.

(** On a well-typed record the end-after-start refinement runs, and reports
    an end that is not after the start at the end-date field. *)
Lemma complete_reports_order hints withId data s e :
  zone_known host hints = true ->
  well_typed host withId data = true ->
  Date_new host (get "startDate" data) = Some s ->
  Date_new host (get "endDate" data) = Some e ->
  e <= s ->
  fails_with (safeParse
                (z_refine (z_object (completeShape host hints withId))
                   endAfterStart endDateMessage [Key "endDate"])
                (VObject data))
    (mkIssue custom [Key "endDate"] endDateMessage).
Proof.
  intros Hk Hwt Hs He Hle. apply zone_known_instant in Hk as [n Hn].
  destruct (completeShape_parse hints n withId data s e Hn Hwt Hs He)
    as (R & HR & Hst & Hstart & Hend & _).
  assert ((e >? s) = false) as Hgt
    by (rewrite Z.gtb_ltb; apply Z.ltb_ge; exact Hle).
  eapply safeParse_fails_with.
  - apply (z_refine_rejects _ _ _ _ _ _ R _ HR Hst
             (endAfterStart_dates _ s e Hstart Hend)).
    exact Hgt.
  - discriminate.
  - simpl. apply in_or_app. right. now left.
Qed.

(** On a well-typed record whose name and custodian validate, whose start is
    in the future and whose end is after the start, the complete schema
    passes. *)
Lemma complete_accepts hints n withId data s e :
  current_instant host hints n ->
  well_typed host withId data = true ->
  name_ok (get "name" data) = true ->
  custodian_ok host (get "custodian" data) = true ->
  Date_new host (get "startDate" data) = Some s ->
  time_gt (Some s) n = true ->
  Date_new host (get "endDate" data) = Some e ->
  s < e ->
  passes (safeParse
            (z_refine (z_object (completeShape host hints withId))
               endAfterStart endDateMessage [Key "endDate"])
            (VObject data)).
Proof.
  intros Hn Hwt Hname Hcust Hs Hfuture He Hlt.
  destruct (completeShape_parse hints n withId data s e Hn Hwt Hs He)
    as (R & HR & Hst & Hstart & Hend & Hvalid).
  destruct (Hvalid Hname Hcust Hfuture) as [Hv Hiss].
  assert ((e >? s) = true) as Hgt
    by (rewrite Z.gtb_ltb; apply Z.ltb_lt; exact Hlt).
  unfold passes, safeParse.
  rewrite (z_refine_accepts _ _ _ _ _ _ R _ HR Hst
             (endAfterStart_dates _ s e Hstart Hend) Hgt). simpl.
  rewrite Hv. eauto.
Qed.

(** ** What a valid field says of its input *)

Lemma date_valid_inv p v r :
  z_coerce_date host p v = Return r ->
  status r = valid -> exists t, Date_new host v = Some t.
Proof.
  unfold z_coerce_date. destruct (Date_new host v) as [t|];
    intros [= <-]; [eauto|discriminate].
Qed.

Lemma opt_date_valid_inv p v r :
  z_optional (z_coerce_date host) p v = Return r ->
  status r = valid -> opt_date host v = true.
Proof.
  destruct v; [reflexivity|..]; simpl; intros Hrun Hst;
    destruct (date_valid_inv _ _ _ Hrun Hst) as [t' ->]; reflexivity.
Qed.

Lemma startDate_valid_inv hints p v r :
  startDateSchema host hints p v = Return r ->
  status r = valid ->
  exists s n, Date_new host v = Some s
              /\ current_instant host hints n
              /\ time_gt (Some s) n = true.
Proof.
  intros Hrun Hst.
  destruct (Date_new host v) as [s|] eqn:Hs.
  - destruct (startDate_runs hints p v s r Hs Hrun) as [n Hn].
    exists s, n. split; [reflexivity|]. split; [exact Hn|].
    destruct (startDate_result hints n p v s r Hn Hs Hrun) as (_ & _ & Hd).
    destruct (time_gt (Some s) n); [reflexivity|].
    rewrite (Hd eq_refl) in Hst. discriminate.
  - unfold startDateSchema, z_refine, z_coerce_date in Hrun.
    rewrite Hs in Hrun. injection Hrun as <-. discriminate.
Qed.

(** A custodian that validated: the text decoded to a custodian payload,
    and the value holds the payload's [id], [name] and [userId]. *)
Lemma custodian_valid_inv p v r :
  custodianSchema host p v = Return r ->
  status r = valid ->
  exists text payload,
    v = VString text
    /\ JSON_parse host text = Some (VObject payload)
    /\ custodian_ok host v = true
    /\ prop (value r) "id" = get "id" payload
    /\ prop (value r) "name" = get "name" payload
    /\ prop (value r) "userId" = get "userId" payload.
Proof.
  unfold custodianSchema, z_pipe, z_transform. intros Hrun Hst.
  destruct v; try (injection Hrun as <-; discriminate Hst).
  unfold custodian_ok, custodianTransform, truthy in *.
  cbn [z_string z_string_min bind status value issues OK] in Hrun.
  destruct (String.eqb s EmptyString) eqn:Hs;
    cbn [negb andb bind fst snd map status value issues app] in *;
    [injection Hrun as <-; discriminate Hst|].
  destruct (JSON_parse host s) as [j|] eqn:Hj;
    cbn [negb andb bind fst snd map status value issues app] in Hrun;
    [|discriminate Hrun].
  destruct j; try (injection Hrun as <-; discriminate Hst).
  apply bind_Return_inv in Hrun as (R & HR & Hrun).
  injection Hrun as <-. cbn [status value] in *.
  set (shape := [("id", z_string); ("name", z_string);
                 ("userId", z_nullable (z_optional z_string))]) in HR.
  assert (NoDup (map fst shape)) as Hnd
    by (repeat (apply NoDup_cons; [simpl; intuition discriminate|]);
        apply NoDup_nil).
  assert (status R <> aborted) as Hna by congruence.
  assert (forall k ty, In (k, ty) shape -> k <> "__proto__" ->
            exists r, ty (p ++ [Key k]) (get k props) = Return r
                      /\ status r = valid
                      /\ prop (value R) k = value r) as Hfield.
  { intros k ty Hin Hk.
    destruct (z_object_field_returns _ _ _ _ k ty HR Hin) as [r Hr].
    exists r. split; [exact Hr|]. split.
    - now apply (z_object_field _ _ _ _ _ _ _ HR Hin Hr).
    - now apply (z_object_value _ _ _ _ k ty r HR Hna Hnd Hin Hk Hr). }
  destruct (Hfield "id" z_string) as (ri & Hri & Hvi & Hpi);
    [simpl; tauto|discriminate|].
  destruct (Hfield "name" z_string) as (rn & Hrn & Hvn & Hpn);
    [simpl; tauto|discriminate|].
  destruct (Hfield "userId" (z_nullable (z_optional z_string)))
    as (ru & Hru & Hvu & Hpu); [simpl; tauto|discriminate|].
  destruct (userId_valid_inv _ _ _ Hru Hvu) as [Hu Huok].
  rewrite (z_string_min_value _ _ _ _ Hri) in Hpi by congruence.
  rewrite (z_string_min_value _ _ _ _ Hrn) in Hpn by congruence.
  rewrite Hu in Hpu.
  exists s, props. unfold custodian_payload.
  rewrite (id_valid_inv _ _ _ Hri Hvi), (id_valid_inv _ _ _ Hrn Hvn), Huok.
  repeat split; assumption.
Qed.

Lemma safeParse_passes_inv schema input :
  passes (safeParse schema input) ->
  exists R, schema [] input = Return R /\ status R = valid.
Proof.
  intros (d & H). unfold safeParse in H.
  apply bind_Return_inv in H as (R & HR & H). exists R. split; [exact HR|].
  destruct (status R); [reflexivity|..]; destruct (issues R); discriminate.
Qed.

(** The fields of a valid object parse are valid. *)
Lemma z_object_valid_field shape p data R k ty :
  z_object shape p (VObject data) = Return R ->
  status R = valid ->
  In (k, ty) shape ->
  exists r, ty (p ++ [Key k]) (get k data) = Return r /\ status r = valid.
Proof.
  intros HR Hst Hin.
  destruct (z_object_field_returns _ _ _ _ k ty HR Hin) as [r Hr].
  exists r. split; [exact Hr|].
  now apply (z_object_field _ _ _ _ _ _ _ HR Hin Hr).
Qed.

(** ** What the schemas accept *)

Lemma baseSchema_accepts_inv data :
  passes (safeParse (baseSchema host) (VObject data)) ->
  base_acceptable host data = true.
Proof.
  intros Hpass. unfold base_acceptable.
  apply safeParse_passes_inv in Hpass as (R & HR & Hst).
  unfold baseSchema in HR.
  destruct (z_object_valid_field _ _ _ _ "name"
              (z_string_min (Some (2%nat, "Name is required")))
              HR Hst) as (r1 & Hr1 & Hv1); [simpl; tauto|].
  destruct (z_object_valid_field _ _ _ _ "assetIds"
              (z_optional (z_array z_string)) HR Hst)
    as (r2 & Hr2 & Hv2); [simpl; tauto|].
  destruct (z_object_valid_field _ _ _ _ "description"
              (z_optional z_string) HR Hst)
    as (r3 & Hr3 & Hv3); [simpl; tauto|].
  destruct (z_object_valid_field _ _ _ _ "custodian"
              (custodianSchema host) HR Hst)
    as (r4 & Hr4 & Hv4); [simpl; tauto|].
  destruct (z_object_valid_field _ _ _ _ "startDate"
              (z_optional (z_coerce_date host)) HR Hst)
    as (r5 & Hr5 & Hv5); [simpl; tauto|].
  destruct (z_object_valid_field _ _ _ _ "endDate"
              (z_optional (z_coerce_date host)) HR Hst)
    as (r6 & Hr6 & Hv6); [simpl; tauto|].
  rewrite (name_valid_inv _ _ _ Hr1 Hv1),
    (assetIds_valid_inv _ _ _ Hr2 Hv2),
    (description_valid_inv _ _ _ Hr3 Hv3),
    (opt_date_valid_inv _ _ _ Hr5 Hv5),
    (opt_date_valid_inv _ _ _ Hr6 Hv6).
  destruct (custodian_valid_inv _ _ _ Hr4 Hv4)
    as (text & payload & _ & _ & -> & _).
  reflexivity.
Qed.

(** The base schema accepts exactly the records that are base-acceptable. *)
Lemma baseSchema_acceptance data :
  passes (safeParse (baseSchema host) (VObject data))
  <-> base_acceptable host data = true.
Proof.
  split; [apply baseSchema_accepts_inv|].
  unfold base_acceptable. intros H.
  apply andb_true_iff in H as [H Hend].
  apply andb_true_iff in H as [H Hstart].
  apply andb_true_iff in H as [H Hcust].
  apply andb_true_iff in H as [H Hdesc].
  apply andb_true_iff in H as [Hname Hassets].
  now apply baseSchema_accepts.
Qed.

(** When the current instant is [n], the complete schema, without or with
    the id, accepts exactly the records that are complete-acceptable. *)
Lemma complete_acceptance hints n withId data :
  current_instant host hints n ->
  passes (safeParse
            (z_refine (z_object (completeShape host hints withId))
               endAfterStart endDateMessage [Key "endDate"])
            (VObject data))
  <-> complete_acceptable host n withId data = true.
Proof.
  intros Hn. unfold complete_acceptable. split.
  - intros Hpass.
    apply safeParse_passes_inv in Hpass as (R' & HR' & Hst').
    apply z_refine_inv in HR'
      as (R & HR & [[_ ->]|(Hna & ok & Hok & ->)]); [discriminate Hst'|].
    assert (status R = valid /\ truthy ok = true) as [Hst Hcheck]
      by (destruct (truthy ok); [now split | discriminate Hst']).
    assert (forall k ty, In (k, ty) (commonFields host) ->
              In (k, ty) (completeShape host hints withId)) as Hcommon
      by (intros k ty Hin; apply in_or_app; now left).
    destruct (z_object_valid_field _ _ _ _ "name"
                (z_string_min (Some (2%nat, "Name is required")))
                HR Hst) as (r1 & Hr1 & Hv1);
      [apply Hcommon; simpl; tauto|].
    destruct (z_object_valid_field _ _ _ _ "assetIds"
                (z_optional (z_array z_string)) HR Hst)
      as (r2 & Hr2 & Hv2); [apply Hcommon; simpl; tauto|].
    destruct (z_object_valid_field _ _ _ _ "description"
                (z_optional z_string) HR Hst)
      as (r3 & Hr3 & Hv3); [apply Hcommon; simpl; tauto|].
    destruct (z_object_valid_field _ _ _ _ "custodian"
                (custodianSchema host) HR Hst)
      as (r4 & Hr4 & Hv4); [apply Hcommon; simpl; tauto|].
    destruct (z_object_valid_field _ _ _ _ "startDate"
                (startDateSchema host hints) HR Hst)
      as (r5 & Hr5 & Hv5); [destruct withId; simpl; tauto|].
    destruct (z_object_valid_field _ _ _ _ "endDate"
                (z_coerce_date host) HR Hst)
      as (r6 & Hr6 & Hv6); [destruct withId; simpl; tauto|].
    destruct (startDate_valid_inv _ _ _ _ Hr5 Hv5)
      as (s & n' & Hs & Hn' & Hfuture).
    rewrite (current_instant_unique hints n' n Hn' Hn) in Hfuture.
    destruct (date_valid_inv _ _ _ Hr6 Hv6) as (e & He).
    rewrite (completeShape_dates hints withId data R s e HR Hna Hs He)
      in Hok.
    injection Hok as <-. simpl in Hcheck.
    rewrite (name_valid_inv _ _ _ Hr1 Hv1),
      (assetIds_valid_inv _ _ _ Hr2 Hv2),
      (description_valid_inv _ _ _ Hr3 Hv3).
    destruct (custodian_valid_inv _ _ _ Hr4 Hv4)
      as (text & payload & _ & _ & -> & _).
    unfold dates_acceptable. rewrite Hs, He, Hfuture, Hcheck. simpl.
    destruct withId eqn:Hid; [|reflexivity].
    destruct (z_object_valid_field _ _ _ _ "id" z_string HR Hst)
      as (r7 & Hr7 & Hv7); [simpl; tauto|].
    apply (id_valid_inv _ _ _ Hr7 Hv7).
  - intros H.
    apply andb_true_iff in H as [H Hid].
    apply andb_true_iff in H as [H Hdates].
    apply andb_true_iff in H as [H Hcust].
    apply andb_true_iff in H as [H Hdesc].
    apply andb_true_iff in H as [Hname Hassets].
    unfold dates_acceptable in Hdates.
    destruct (Date_new host (get "startDate" data)) as [s|] eqn:Hs;
      [|discriminate].
    destruct (Date_new host (get "endDate" data)) as [e|] eqn:He;
      [|discriminate].
    apply andb_true_iff in Hdates as [Hfuture Hgt].
    apply (complete_accepts hints n withId data s e); auto.
    + unfold well_typed, custodian_given.
      rewrite Hassets, Hdesc, Hcust, Hid.
      destruct (get "name" data); try discriminate. reflexivity.
    + rewrite Z.gtb_ltb in Hgt. now apply Z.ltb_lt.
Qed.

Lemma validate_complete hints action status data :
  validates_both_dates action status ->
  validate host hints action status data
  = safeParse
      (z_refine (z_object (completeShape host hints (requires_id action)))
         endAfterStart endDateMessage [Key "endDate"])
      data.
Proof. intros [-> | [-> | [-> ->]]]; reflexivity. Qed.

(** ** Claims about the selector *)

(** C3. With action ["save"] and no status the selector throws
    [Error("Status is required for save action.")], whatever the hints: it
    returns no schema, so a validation through it throws as well and the
    base schema is never used. *)
Theorem C3_save_without_status_throws :
  forall (hints : option Hints),
    BookingFormSchema host hints "save" None
    = Throw (Error "Status is required for save action.")
    /\ (forall schema,
          BookingFormSchema host hints "save" None <> Return schema)
    /\ (forall data,
          validate host hints "save" None data
          = Throw (Error "Status is required for save action.")).
Proof.
  intros hints. repeat split.
  intros schema H. discriminate H.
Qed.

(** C5. ["save"] with status DRAFT validates as ["reserve"] does.  Every
    input has the same outcome under both: the same data, the same issues or
    the same thrown error.  And both validate the full field set, require
    the id and apply the two date refinements: when the current instant is
    [n], each accepts exactly the records whose name, asset list,
    description and custodian validate, whose start date coerces to a date
    after [n], whose end date coerces to a date after the start date, and
    whose id is a string. *)
Theorem C5_save_draft_same_as_reserve :
  forall (hints : option Hints) (status : option BookingStatus),
    (forall input,
        validate host hints "save" (Some DRAFT) input
        = validate host hints "reserve" status input)
    /\ (forall n data,
          current_instant host hints n ->
          (passes (validate host hints "save" (Some DRAFT) (VObject data))
           <-> complete_acceptable host n true data = true)
          /\ (passes (validate host hints "reserve" status (VObject data))
              <-> complete_acceptable host n true data = true)).
Proof.
  intros hints status. split; [reflexivity|].
  intros n data Hn.
  rewrite (validate_complete hints "save" (Some DRAFT) (VObject data))
    by (right; right; now split).
  rewrite (validate_complete hints "reserve" status (VObject data))
    by (right; now left).
  split; now apply complete_acceptance.
Qed.

(** C2. In every schema the selector returns, a custodian text that is not
    empty and that [JSON.parse] rejects makes the validation call throw the
    [SyntaxError] of [JSON.parse]: the call returns no result, so no issue
    is reported for the custodian field. *)
Theorem C2_malformed_custodian_throws :
  forall (hints : option Hints) (action : string)
         (status : option BookingStatus) (schema : ZodType)
         (data : list (string * JsVal)) (text : string),
    BookingFormSchema host hints action status = Return schema ->
    get "custodian" data = VString text ->
    text <> EmptyString ->
    JSON_parse host text = None ->
    safeParse schema (VObject data) = Throw SyntaxError
    /\ ~ fails (safeParse schema (VObject data)).
Proof.
  intros hints action status schema data text Hsel Hget Hne Hparse.
  apply BookingFormSchema_selected in Hsel as (rest & _ & Hsel).
  assert (safeParse schema (VObject data) = Throw SyntaxError) as Hthrow
    by now apply (selected_custodian_throws schema rest data text).
  split; [assumption|].
  rewrite Hthrow. intros (error & H). discriminate H.
Qed.


(** ** Claims about the rule sets *)


(** C4. For ["save"] with status COMPLETED, CANCELLED or ARCHIVED no case of
    the inner switch matches and the selector returns the base schema.  The
    validation then checks the base field set and nothing else: a record
    passes exactly when its name has two characters or more, its custodian
    decodes to a custodian payload, its asset list is absent or an array of
    strings, its description is absent or a string, and each of its dates
    is absent or coerces to a date.  No condition bears on the current
    instant or on the order of the two dates. *)
Theorem C4_save_terminal_status_base_schema :
  forall (hints : option Hints) (st : BookingStatus),
    In st [COMPLETED; CANCELLED; ARCHIVED] ->
    saveCase host hints st = None
    /\ BookingFormSchema host hints "save" (Some st)
       = Return (baseSchema host)
    /\ (forall data,
          passes (validate host hints "save" (Some st) (VObject data))
          <-> base_acceptable host data = true).
Proof.
  intros hints st Hst.
  assert (saveCase host hints st = None) as Hcase
    by (simpl in Hst; destruct Hst as [<-|[<-|[<-|[]]]]; reflexivity).
  assert (BookingFormSchema host hints "save" (Some st)
          = Return (baseSchema host)) as Hsel
    by (unfold BookingFormSchema; simpl; now rewrite Hcase).
  repeat split; try assumption.
  - intros Hpass. unfold validate in Hpass. rewrite Hsel in Hpass.
    now apply baseSchema_acceptance.
  - intros Hok. unfold validate. rewrite Hsel.
    now apply baseSchema_acceptance.
Qed.

(** C6 (amended).  In the rule sets that validate both dates
    (["new"], ["reserve"], ["save"] of a DRAFT) a record whose end date is
    not after its start date never passes; when the zone of the hint is
    known to the runtime and the other fields of the record are well typed,
    so that no field aborts the object, the failure carries "End date
    cannot be earlier than start date" at the end-date field. *)
Theorem C6_end_not_after_start :
  forall (hints : option Hints) (action : string)
         (status : option BookingStatus)
         (data : list (string * JsVal)) (s e : Z),
    validates_both_dates action status ->
    Date_new host (get "startDate" data) = Some s ->
    Date_new host (get "endDate" data) = Some e ->
    e <= s ->
    ~ passes (validate host hints action status (VObject data))
    /\ (zone_known host hints = true ->
        well_typed host (requires_id action) data = true ->
        fails_with (validate host hints action status (VObject data))
          (mkIssue custom [Key "endDate"]
             "End date cannot be earlier than start date")).
Proof.
  intros hints action status data s e Hboth Hs He Hle.
  rewrite (validate_complete hints action status _ Hboth). split.
  - now apply (complete_rejects_order hints _ data s e).
  - intros Hk Hwt. now apply (complete_reports_order hints _ data s e).
Qed.



End BookingProperties.

(** ** The start-date input *)

Lemma string_append_assoc (a b c : string) :
  ((a ++ b) ++ c)%string = (a ++ (b ++ c))%string.
Proof. induction a as [|x a IH]; simpl; [reflexivity | now rewrite IH]. Qed.

Lemma string_length_append (a b : string) :
  String.length (a ++ b) = (String.length a + String.length b)%nat.
Proof. induction a as [|x a IH]; simpl; [reflexivity | now rewrite IH]. Qed.

Lemma substring_prefix (a c : string) :
  substring 0 (String.length a) (a ++ c) = a.
Proof.
  induction a as [|x a IH]; simpl.
  - destruct c; reflexivity.
  - now rewrite IH.
Qed.

(** Dropping the seconds of a date-time text. *)
Lemma drop_seconds (a : string) :
  substring 0 (String.length (a ++ "T18:00:00") - 3) (a ++ "T18:00:00")
  = (a ++ "T18:00")%string.
Proof.
  change "T18:00:00" with ("T18:00" ++ ":00")%string.
  rewrite <- string_append_assoc.
  rewrite (string_length_append (a ++ "T18:00") ":00").
  replace (String.length (a ++ "T18:00") + String.length ":00" - 3)%nat
    with (String.length (a ++ "T18:00")) by (simpl; lia).
  apply substring_prefix.
Qed.

Lemma Day_at_six_pm (day ms : Z) :
  0 <= ms < 1000 ->
  Day (MakeDate day (MakeTime 18 0 0 ms)) = day.
Proof.
  intros Hms. unfold Day, MakeDate, MakeTime, msPerDay.
  symmetry. apply (Z.div_unique _ _ _ (64800000 + ms)); lia.
Qed.

Lemma TimeWithinDay_at_six_pm (day ms : Z) :
  0 <= ms < 1000 ->
  TimeWithinDay (MakeDate day (MakeTime 18 0 0 ms)) = 64800000 + ms.
Proof.
  intros Hms. unfold TimeWithinDay, MakeDate, MakeTime, msPerDay.
  symmetry. apply (Z.mod_unique _ _ day); lia.
Qed.

Lemma isoTime_at_six_pm (ms : Z) :
  0 <= ms < 1000 -> isoTime (64800000 + ms) = "18:00:00".
Proof.
  intros Hms. unfold isoTime, HourFromTime, MinFromTime, SecFromTime.
  replace ((64800000 + ms) / 3600000) with 18
    by (apply (Z.div_unique _ _ _ ms); lia).
  replace ((64800000 + ms) / 60000) with 1080
    by (apply (Z.div_unique _ _ _ ms); lia).
  replace ((64800000 + ms) / 1000) with 64800
    by (apply (Z.div_unique _ _ _ ms); lia).
  reflexivity.
Qed.

Section StartDateInput.

Variable host : Host.

(** The text written for six in the evening of the local day of [t]. *)
Lemma six_pm_text (t : Z) :
  dateForDateTimeInputValue host (setHours host (Some t) 18 0 0)
  = (isoDate (Day (LocalTime host t)) ++ "T18:00:00")%string.
Proof.
  unfold dateForDateTimeInputValue, setHours.
  set (lt := LocalTime host t).
  assert (0 <= msFromTime lt < 1000) as Hms
    by (unfold msFromTime; apply Z.mod_pos_bound; lia).
  replace (LocalTime host (UTC host (MakeDate (Day lt)
             (MakeTime 18 0 0 (msFromTime lt)))))
    with (MakeDate (Day lt) (MakeTime 18 0 0 (msFromTime lt)))
    by (unfold LocalTime, UTC; lia).
  rewrite (Day_at_six_pm _ _ Hms), (TimeWithinDay_at_six_pm _ _ Hms).
  now rewrite (isoTime_at_six_pm _ Hms).
Qed.


End StartDateInput.

(** * The claims on concrete records *)

(** ** Witnesses and counterexamples *)



(** C2, witness: the custodian text [not-json] makes the validation for
    ["new"] throw. *)
Lemma C2_malformed_custodian_throws_witness :
  validate host2024 None "new" None (VObject malformedCustodian)
  = Throw SyntaxError.
Proof.
  apply (C2_malformed_custodian_throws host2024 None "new" None
           (schemaForNew host2024 None) malformedCustodian "not-json").
  - reflexivity.
  - reflexivity.
  - discriminate.
  - reflexivity.
Defined.

(** C4, witness: an ARCHIVED booking is saved under the base schema, which
    accepts an end date before the start date and a start date in the past,
    and rejects a name of one character. *)
Lemma C4_save_terminal_status_base_schema_witness :
  In ARCHIVED [COMPLETED; CANCELLED; ARCHIVED]
  /\ passes (validate host2024 None "save" (Some ARCHIVED)
               (VObject endsBeforeStart))
  /\ passes (validate host2024 None "save" (Some ARCHIVED)
               (VObject startsInThePast))
  /\ ~ passes (validate host2024 None "save" (Some ARCHIVED)
                 (VObject shortName)).
Proof.
  assert (In ARCHIVED [COMPLETED; CANCELLED; ARCHIVED]) as Hin
    by (simpl; tauto).
  destruct (C4_save_terminal_status_base_schema host2024 None ARCHIVED Hin)
    as (_ & _ & Hiff).
  split; [exact Hin|]. split; [|split].
  - apply Hiff. reflexivity.
  - apply Hiff. reflexivity.
  - intros Hpass. apply Hiff in Hpass. discriminate Hpass.
Defined.

(** C5, witness: a DRAFT booking is saved as it is reserved: the complete
    booking passes, and it is rejected without its id, or when it ends
    before it starts. *)
Lemma C5_save_draft_same_as_reserve_witness :
  current_instant host2024 None (Some 1704067200000)
  /\ passes (validate host2024 None "save" (Some DRAFT)
               (VObject completeBooking))
  /\ ~ passes (validate host2024 None "save" (Some DRAFT)
                 (VObject withoutId))
  /\ ~ passes (validate host2024 None "reserve" None
                 (VObject endsBeforeStart)).
Proof.
  assert (current_instant host2024 None (Some 1704067200000)) as Hn
    by reflexivity.
  destruct (C5_save_draft_same_as_reserve host2024 None None)
    as [_ Hiff].
  split; [exact Hn|]. split; [|split].
  - apply (Hiff _ completeBooking Hn). reflexivity.
  - intros Hpass. apply (Hiff _ withoutId Hn) in Hpass.
    discriminate Hpass.
  - intros Hpass. apply (Hiff _ endsBeforeStart Hn) in Hpass.
    discriminate Hpass.
Defined.

(** C6, counterexample: under the schema for ["new"] a record without a
    name that ends before it starts fails with the error of the name field
    only; the end-date message is not reported. *)
Lemma C6_missing_name_hides_end_date_error :
  Date_new host2024 (get "startDate" endsBeforeStartNoName)
  = Some 1705050000000
  /\ Date_new host2024 (get "endDate" endsBeforeStartNoName)
     = Some 1704880800000
  /\ validate host2024 None "new" None (VObject endsBeforeStartNoName)
     = Return (Failure [mkIssue invalid_type [Key "name"] "Required"])
  /\ ~ fails_with
         (validate host2024 None "new" None (VObject endsBeforeStartNoName))
         (mkIssue custom [Key "endDate"]
            "End date cannot be earlier than start date").
Proof.
  repeat split.
  intros (error & H & Hin). vm_compute in H. injection H as <-.
  destruct Hin as [Heq|[]]. discriminate Heq.
Qed.

(** C6, witness: a complete booking that ends before it starts is rejected
    for ["reserve"] with the end-date message. *)
Lemma C6_end_not_after_start_witness :
  validates_both_dates "reserve" None
  /\ 1704880800000 <= 1705050000000
  /\ ~ passes (validate host2024 None "reserve" None
                 (VObject endsBeforeStart))
  /\ fails_with (validate host2024 None "reserve" None
                   (VObject endsBeforeStart))
       (mkIssue custom [Key "endDate"]
          "End date cannot be earlier than start date").
Proof.
  assert (validates_both_dates "reserve" None) as Hboth
    by (right; left; reflexivity).
  assert (1704880800000 <= 1705050000000) as Hle by lia.
  destruct (C6_end_not_after_start host2024 None "reserve" None
              endsBeforeStart 1705050000000 1704880800000
              Hboth eq_refl eq_refl Hle) as [Hnot Hmsg].
  repeat split; try assumption. apply Hmsg; reflexivity.
Defined.






(** * Further properties *)

(** ** Every failure is reported *)

Lemma mergeStatus_not_valid sts :
  mergeStatus sts <> valid -> exists s, In s sts /\ s <> valid.
Proof.
  induction sts as [|st sts IH]; simpl; intros H; [congruence|].
  destruct st.
  - destruct (IH H) as (s & Hin & Hs). exists s. auto.
  - exists dirty. split; [now left | discriminate].
  - exists aborted. split; [now left | discriminate].
Qed.

Lemma flat_map_not_nil {A B} (f : A -> list B) (l : list A) (x : A) :
  In x l -> f x <> [] -> flat_map f l <> [].
Proof.
  intros Hin Hx Hnil. apply Hx.
  destruct (f x) as [|b bs] eqn:Hfx; [reflexivity|].
  assert (In b (flat_map f l)) as Hb
    by (apply in_flat_map; exists x; split; [assumption|rewrite Hfx; now left]).
  rewrite Hnil in Hb. destruct Hb.
Qed.

Lemma z_string_min_reports min : reports (z_string_min min).
Proof.
  intros p v r. unfold z_string_min.
  destruct v; try (intros [= <-] _; discriminate).
  destruct min as [[n msg]|]; [destruct (Nat.ltb _ _)|];
    intros [= <-]; simpl; congruence.
Qed.

Lemma z_optional_reports inner : reports inner -> reports (z_optional inner).
Proof.
  intros H p v r. destruct v; simpl; try apply H.
  intros [= <-]. simpl. congruence.
Qed.

Lemma z_nullable_reports inner : reports inner -> reports (z_nullable inner).
Proof.
  intros H p v r. destruct v; simpl; try apply H.
  intros [= <-]. simpl. congruence.
Qed.

Lemma parseItems_results elem p : forall items i rs r,
  parseItems elem p i items = Return rs ->
  In r rs ->
  exists j x, nth_error items j = Some x
              /\ elem (p ++ [Index (i + j)]) x = Return r.
Proof.
  induction items as [|x items IH]; intros i rs r Hrun Hin; simpl in Hrun.
  - injection Hrun as <-. destruct Hin.
  - apply bind_Return_inv in Hrun as (r0 & Hr0 & Hrun).
    apply bind_Return_inv in Hrun as (rs' & Hrs & Hrun).
    injection Hrun as <-. destruct Hin as [<-|Hin].
    + exists 0%nat, x. split; [reflexivity|]. now rewrite Nat.add_0_r.
    + destruct (IH (S i) rs' r Hrs Hin) as (j & y & Hj & Hy).
      exists (S j), y. split; [exact Hj|].
      now replace (i + S j)%nat with (S i + j)%nat by lia.
Qed.

Lemma z_array_reports elem : reports elem -> reports (z_array elem).
Proof.
  intros Helem p v r. unfold z_array.
  destruct v; try (intros [= <-] _; discriminate).
  intros Hrun Hst. apply bind_Return_inv in Hrun as (rs & Hrs & Hrun).
  assert (mergeStatus (map status rs) <> valid) as Hm.
  { destruct (mergeStatus (map status rs)); injection Hrun as <-;
      simpl in Hst; congruence. }
  apply mergeStatus_not_valid in Hm as (s & Hs & Hsv).
  apply in_map_iff in Hs as (r0 & <- & Hr0).
  destruct (parseItems_results _ _ _ _ _ _ Hrs Hr0) as (j & x & _ & Hx).
  assert (flat_map issues rs <> []) as Hiss
    by (apply (flat_map_not_nil issues rs r0 Hr0), (Helem _ _ _ Hx Hsv)).
  destruct (mergeStatus (map status rs)); injection Hrun as <-; exact Hiss.
Qed.

Lemma z_refine_reports inner check msg ip :
  reports inner -> reports (z_refine inner check msg ip).
Proof.
  intros Hinner p v r Hrun Hst.
  apply z_refine_inv in Hrun
    as (r0 & Hr0 & [[Hs0 ->]|(Hs0 & ok & _ & ->)]).
  - simpl. apply (Hinner _ _ _ Hr0). congruence.
  - destruct (truthy ok).
    + now apply (Hinner _ _ _ Hr0).
    + simpl. intros Hnil. apply app_eq_nil in Hnil as [_ Hnil].
      discriminate.
Qed.

Lemma z_transform_reports inner f :
  reports inner -> reports (z_transform inner f).
Proof.
  intros Hinner p v r. unfold z_transform. intros Hrun Hst.
  apply bind_Return_inv in Hrun as (base & Hbase & Hrun).
  destruct (status base) eqn:Hsb.
  - apply bind_Return_inv in Hrun as (out & Hout & Hrun).
    injection Hrun as <-. simpl in *.
    destruct (map (mkIssue custom p) (fst out)); [congruence|].
    intros Hnil. apply app_eq_nil in Hnil as [_ Hnil]. discriminate.
  - injection Hrun as <-. apply (Hinner _ _ _ Hbase). congruence.
  - injection Hrun as <-. apply (Hinner _ _ _ Hbase). congruence.
Qed.

Lemma z_pipe_reports a b : reports a -> reports b -> reports (z_pipe a b).
Proof.
  intros Ha Hb p v r. unfold z_pipe. intros Hrun Hst.
  apply bind_Return_inv in Hrun as (inResult & Hin & Hrun).
  destruct (status inResult) eqn:Hsi.
  - apply bind_Return_inv in Hrun as (r0 & Hr0 & Hrun).
    injection Hrun as <-. simpl in *.
    intros Hnil. apply app_eq_nil in Hnil as [_ Hnil].
    now apply (Hb _ _ _ Hr0 Hst).
  - injection Hrun as <-. simpl. apply (Ha _ _ _ Hin). congruence.
  - injection Hrun as <-. simpl. apply (Ha _ _ _ Hin). congruence.
Qed.

Lemma z_object_reports shape :
  (forall k ty, In (k, ty) shape -> reports ty) -> reports (z_object shape).
Proof.
  intros Hall p v r. unfold z_object.
  destruct v; try (intros [= <-] _; discriminate).
  intros Hrun Hst. apply bind_Return_inv in Hrun as (prs & Hprs & Hrun).
  set (sts := map (fun pr => status (presult pr)) prs) in *.
  assert (mergeStatus sts <> valid) as Hm.
  { destruct (mergeStatus sts); injection Hrun as <-; simpl in Hst;
      congruence. }
  apply mergeStatus_not_valid in Hm as (s & Hs & Hsv).
  apply in_map_iff in Hs as (pr & <- & Hpr).
  destruct (parsePairs_pairs _ _ _ _ _ Hprs Hpr) as (ty & Hty & Hr).
  assert (flat_map (fun pr => issues (presult pr)) prs <> []) as Hiss.
  { apply (flat_map_not_nil _ prs pr Hpr). apply (Hall _ _ Hty _ _ _ Hr Hsv). }
  destruct (mergeStatus sts); injection Hrun as <-; exact Hiss.
Qed.

(** A validation through a parser that reports throws only what the parser
    throws. *)
Lemma safeParse_throws schema data e :
  reports schema ->
  safeParse schema data = Throw e -> schema [] data = Throw e.
Proof.
  intros Hrep. unfold safeParse.
  destruct (schema [] data) as [r|e'] eqn:Hrun; simpl; [|now intros [= <-]].
  destruct (status r) eqn:Hst; [discriminate| |];
    (destruct (issues r) eqn:Hiss; [|discriminate]);
    exfalso; apply (Hrep _ _ _ Hrun); congruence.
Qed.

Section FurtherSchemaProperties.

Variable host : Host.

Lemma z_coerce_date_reports : reports (z_coerce_date host).
Proof.
  intros p v r. unfold z_coerce_date.
  destruct (Date_new host v); intros [= <-]; simpl; congruence.
Qed.

Lemma custodianSchema_reports : reports (custodianSchema host).
Proof.
  apply z_pipe_reports.
  - apply z_transform_reports, z_string_min_reports.
  - apply z_object_reports.
    intros k ty [[= <- <-]|[[= <- <-]|[[= <- <-]|[]]]].
    + apply z_string_min_reports.
    + apply z_string_min_reports.
    + apply z_nullable_reports, z_optional_reports, z_string_min_reports.
Qed.

Lemma commonFields_report k ty :
  In (k, ty) (commonFields host) -> reports ty.
Proof.
  intros [[= <- <-]|[[= <- <-]|[[= <- <-]|[[= <- <-]|[]]]]].
  - apply z_string_min_reports.
  - apply z_optional_reports, z_array_reports, z_string_min_reports.
  - apply z_optional_reports, z_string_min_reports.
  - apply custodianSchema_reports.
Qed.

(** Every schema the selector returns reports its failures. *)
Lemma BookingFormSchema_reports hints action status schema :
  BookingFormSchema host hints action status = Return schema ->
  reports schema.
Proof.
  intros H.
  assert (forall rest,
            (forall k ty, In (k, ty) rest -> reports ty) ->
            reports (z_object (commonFields host ++ rest))) as Hobj.
  { intros rest Hrest. apply z_object_reports. intros k ty Hin.
    apply in_app_or in Hin as [Hin|Hin];
      [now apply (commonFields_report k) | now apply (Hrest k)]. }
  apply BookingFormSchema_cases in H as [[_ [->| ->]]|[_ ->]].
  - unfold schemaForNew. rewrite fullShape_eq.
    apply z_refine_reports, Hobj.
    intros k ty [[= <- <-]|[[= <- <-]|[]]].
    + apply z_refine_reports, z_coerce_date_reports.
    + apply z_coerce_date_reports.
  - unfold fullSchemaWithId. rewrite fullShapeWithId_eq.
    apply z_refine_reports, Hobj.
    intros k ty [[= <- <-]|[[= <- <-]|[[= <- <-]|[]]]].
    + apply z_refine_reports, z_coerce_date_reports.
    + apply z_coerce_date_reports.
    + apply z_string_min_reports.
  - unfold baseSchema. rewrite baseShape_eq. apply Hobj.
    intros k ty [[= <- <-]|[[= <- <-]|[]]];
      apply z_optional_reports, z_coerce_date_reports.
Qed.

(** A selected schema returns on every input whose fields return. *)
Lemma selected_returns schema rest input :
  selected schema (commonFields host ++ rest) ->
  (forall data, input = VObject data -> fields_return rest [] data) ->
  malformed_custodian host input = false ->
  exists r, schema [] input = Return r.
Proof.
  intros Hsel Hrest Hmal.
  assert (exists R, z_object (commonFields host ++ rest) [] input = Return R)
    as [R HR].
  { destruct input; try (simpl; eauto; fail).
    apply z_object_returns, selected_fields_return; [now apply Hrest|].
    simpl in Hmal. now apply negb_false_iff in Hmal. }
  destruct Hsel as [-> | ->]; [eauto|].
  unfold z_refine, endAfterStart. rewrite HR. simpl.
  destruct (status R); try destruct (truthy _); eauto.
Qed.

(** A complete schema throws the [RangeError] of [toLocaleString] on a
    record whose custodian text decodes and whose start date coerces, when
    the zone of the hint is unknown. *)
Lemma complete_throws hints post data s :
  custodian_decodes host (get "custodian" data) = true ->
  zone_known host hints = false ->
  Date_new host (get "startDate" data) = Some s ->
  safeParse
    (z_refine
       (z_object
          (commonFields host
           ++ ("startDate", startDateSchema host hints) :: post))
       endAfterStart endDateMessage [Key "endDate"])
    (VObject data)
  = Throw RangeError.
Proof.
  intros Hdec Hzone Hs.
  assert (parsePairs
            (commonFields host
             ++ ("startDate", startDateSchema host hints) :: post) [] data
          = Throw RangeError) as Hp.
  { apply parsePairs_throws; [now apply commonFields_return|].
    now apply (startDateSchema_throws host hints _ _ s). }
  unfold safeParse, z_refine, z_object. now rewrite Hp.
Qed.


(** X2. The selector throws exactly when the action is ["save"] and the
    status is absent; with any other action, and with ["save"] and a status,
    it returns a schema. *)
Theorem BookingFormSchema_throws_iff :
  forall (hints : option Hints) (action : string)
         (status : option BookingStatus),
    (exists e, BookingFormSchema host hints action status = Throw e)
    <-> action = "save" /\ status = None.
Proof.
  intros hints action status. unfold BookingFormSchema. split.
  - intros [e H].
    destruct (String.eqb action "new"); cbv beta iota in H;
      [discriminate H|].
    destruct (String.eqb action "reserve"); cbv beta iota in H;
      [discriminate H|].
    destruct (String.eqb_spec action "save") as [->|Hne];
      cbv beta iota in H.
    + destruct status as [st|]; [|now split].
      simpl in H. destruct (saveCase host hints st); discriminate H.
    + simpl in H. discriminate H.
  - intros [-> ->]. eexists. reflexivity.
Qed.

End FurtherSchemaProperties.

(** ** What the schemas accept, as properties *)

Section Acceptance.

Variable host : Host.

(** X3. The base schema accepts a record exactly when its name has two
    characters or more, its custodian is a text that decodes to a custodian
    payload, its asset list is absent or an array of strings, its
    description is absent or a string, and each of its dates is absent or
    coerces to a date. *)
Theorem baseSchema_accepts_iff :
  forall (data : list (string * JsVal)),
    passes (safeParse (baseSchema host) (VObject data))
    <-> base_acceptable host data = true.
Proof.
  intros data. split.
  - apply baseSchema_accepts_inv.
  - apply baseSchema_acceptance.
Qed.

(** X4. When the current instant is [n], read in the zone of the hint where
    the hint names a zone the runtime knows, the complete schema, without
    or with the id, accepts a record exactly when the base conditions on
    name, custodian, asset list and description hold, the start date coerces
    to a date after [n], the end date coerces to a date after the start
    date, and the id, where the schema has it, is a string. *)
Theorem complete_accepts_iff :
  forall (hints : option Hints) (action : string)
         (status : option BookingStatus) (data : list (string * JsVal))
         (n : option Z),
    validates_both_dates action status ->
    current_instant host hints n ->
    (passes (validate host hints action status (VObject data))
     <-> complete_acceptable host n (requires_id action) data = true).
Proof.
  intros hints action st data n Hboth Hn.
  rewrite (validate_complete host hints action st _ Hboth).
  now apply complete_acceptance.
Qed.

End Acceptance.

(** ** Where the errors are, and what a success holds *)

Lemma parseItems_nth elem p : forall items i rs j x,
  parseItems elem p i items = Return rs ->
  nth_error items j = Some x ->
  exists r, elem (p ++ [Index (i + j)]) x = Return r /\ In r rs.
Proof.
  induction items as [|y items IH]; intros i rs j x Hrun Hnth.
  - destruct j; discriminate.
  - simpl in Hrun.
    apply bind_Return_inv in Hrun as (r0 & Hr0 & Hrun).
    apply bind_Return_inv in Hrun as (rs' & Hrs & Hrun).
    injection Hrun as <-. destruct j as [|j]; simpl in Hnth.
    + injection Hnth as <-. exists r0. rewrite Nat.add_0_r.
      split; [exact Hr0 | now left].
    + destruct (IH (S i) rs' j x Hrs Hnth) as (r & Hr & Hin).
      exists r. replace (i + S j)%nat with (S i + j)%nat by lia.
      split; [exact Hr | now right].
Qed.

(** An element of an array of strings that is not a string is reported at
    its index. *)
Lemma z_array_string_item p items i x :
  nth_error items i = Some x ->
  is_string x = false ->
  exists R, z_array z_string p (VArray items) = Return R
            /\ status R <> valid
            /\ In (invalid_type_issue (p ++ [Index i]) "string" x) (issues R).
Proof.
  intros Hnth Hx. unfold z_array.
  destruct (parseItems_total z_string z_string_total items p 0%nat)
    as [rs Hrs].
  rewrite Hrs. simpl.
  destruct (parseItems_nth _ _ _ _ _ _ _ Hrs Hnth) as (r & Hr & Hin).
  simpl in Hr.
  assert (r = INVALID [invalid_type_issue (p ++ [Index i]) "string" x])
    as -> by (destruct x; try discriminate; now injection Hr as <-).
  assert (mergeStatus (map status rs) <> valid) as Hm.
  { intros Hm.
    pose proof (mergeStatus_valid _ Hm aborted) as Hab.
    discriminate Hab. apply in_map_iff. eexists. split; [|exact Hin].
    reflexivity. }
  assert (In (invalid_type_issue (p ++ [Index i]) "string" x)
            (flat_map issues rs)) as Hiss.
  { apply in_flat_map. eexists. split; [exact Hin|]. now left. }
  destruct (mergeStatus (map status rs)); eexists;
    (split; [reflexivity|]); simpl; split; auto; discriminate.
Qed.

(** An object parse that did not abort holds nothing under a key that is
    not in its shape. *)
Lemma z_object_strips shape p data R k :
  z_object shape p (VObject data) = Return R ->
  status R <> aborted ->
  ~ In k (map fst shape) ->
  prop (value R) k = VUndefined.
Proof.
  unfold z_object. intros Hrun Hst Hk.
  apply bind_Return_inv in Hrun as (prs & Hprs & Hrun).
  rewrite <- (parsePairs_keys _ _ _ _ Hprs) in Hk.
  destruct (mergeStatus _); injection Hrun as <-; simpl in *;
    try congruence; now apply get_finalObject_absent.
Qed.

Section Errors.

Variable host : Host.

(** The shape of a selected schema: the common fields, then fields that
    return where the start-date refinement does not throw, among which the
    two date fields; its keys are distinct and are schema keys. *)
Lemma BookingFormSchema_shape hints action status schema :
  BookingFormSchema host hints action status = Return schema ->
  exists rest tys tye,
    selected schema (commonFields host ++ rest)
    /\ (forall data,
          start_date_throws host hints action status (VObject data)
          = false ->
          fields_return rest [] data)
    /\ In ("startDate", tys) rest /\ date_field host hints tys
    /\ In ("endDate", tye) rest /\ date_field host hints tye
    /\ NoDup (map fst (commonFields host ++ rest))
    /\ (forall k, In k (map fst (commonFields host ++ rest)) ->
                  In k schemaKeys).
Proof.
  intros H. unfold date_field.
  apply BookingFormSchema_cases in H as [[Href [->| ->]]|[_ ->]].
  - exists [("startDate", startDateSchema host hints);
            ("endDate", z_coerce_date host)],
      (startDateSchema host hints), (z_coerce_date host).
    split; [apply selected_refined; unfold schemaForNew;
            now rewrite fullShape_eq|].
    split.
    { intros data Hthrows.
      apply (complete_fields_return host hints action status _ _
               Href Hthrows).
      intros k ty [[= <- <-]|[[= <- <-]|[]]];
        auto using z_coerce_date_total. }
    split; [simpl; tauto|]. split; [auto|].
    split; [simpl; tauto|]. split; [auto|]. split.
    + repeat (apply NoDup_cons; [simpl; intuition discriminate|]).
      apply NoDup_nil.
    + unfold schemaKeys. simpl. intuition.
  - exists [("startDate", startDateSchema host hints);
            ("endDate", z_coerce_date host);
            ("id", z_string)],
      (startDateSchema host hints), (z_coerce_date host).
    split; [apply selected_refined; unfold fullSchemaWithId;
            now rewrite fullShapeWithId_eq|].
    split.
    { intros data Hthrows.
      apply (complete_fields_return host hints action status _ _
               Href Hthrows).
      intros k ty [[= <- <-]|[[= <- <-]|[[= <- <-]|[]]]];
        auto using z_coerce_date_total, z_string_total. }
    split; [simpl; tauto|]. split; [auto|].
    split; [simpl; tauto|]. split; [auto|]. split.
    + repeat (apply NoDup_cons; [simpl; intuition discriminate|]).
      apply NoDup_nil.
    + unfold schemaKeys. simpl. intuition.
  - exists [("startDate", z_optional (z_coerce_date host));
            ("endDate", z_optional (z_coerce_date host))],
      (z_optional (z_coerce_date host)), (z_optional (z_coerce_date host)).
    split; [apply selected_object; unfold baseSchema;
            now rewrite baseShape_eq|].
    split.
    { intros data _. apply total_fields_return.
      intros k ty [[= <- <-]|[[= <- <-]|[]]];
        auto using z_optional_total, z_coerce_date_total. }
    split; [simpl; tauto|]. split; [auto|].
    split; [simpl; tauto|]. split; [auto|]. split.
    + repeat (apply NoDup_cons; [simpl; intuition discriminate|]).
      apply NoDup_nil.
    + unfold schemaKeys. simpl. intuition.
Qed.

(** A date field on a value that is present and does not coerce to a
    date. *)
Lemma date_field_invalid hints ty p v :
  date_field host hints ty ->
  v <> VUndefined ->
  Date_new host v = None ->
  ty p v = Return (INVALID [mkIssue invalid_date p "Invalid date"]).
Proof.
  intros [-> | [-> | ->]] Hv Hnew.
  - destruct v; try congruence; simpl; unfold z_coerce_date;
      now rewrite Hnew.
  - unfold startDateSchema, z_refine, z_coerce_date. now rewrite Hnew.
  - unfold z_coerce_date. now rewrite Hnew.
Qed.

(** A date field that validated on a value that is present holds the date
    the value coerces to. *)
Lemma date_field_value hints ty p v r :
  date_field host hints ty ->
  v <> VUndefined ->
  ty p v = Return r ->
  status r = valid ->
  value r = VDate (Date_new host v).
Proof.
  intros [-> | [-> | ->]] Hv Hrun Hst.
  - assert (z_coerce_date host p v = Return r) as Hrun'
      by (destruct v; try congruence; exact Hrun).
    destruct (date_valid_inv host _ _ _ Hrun' Hst) as [t Ht].
    rewrite Ht. now rewrite (date_result host _ _ _ _ Ht Hrun').
  - destruct (startDate_valid_inv host _ _ _ _ Hrun Hst)
      as (s & n & Hs & _ & _).
    rewrite Hs. now rewrite (startDate_value host hints _ _ _ _ Hs Hrun).
  - destruct (date_valid_inv host _ _ _ Hrun Hst) as [t Ht].
    rewrite Ht. now rewrite (date_result host _ _ _ _ Ht Hrun).
Qed.


(** The custodian field on a text that decodes to [j]: the object schema
    of the pipe parses [j] at the path of the field. *)
Lemma custodian_decoded p text j :
  text <> EmptyString ->
  JSON_parse host text = Some j ->
  custodianSchema host p (VString text)
  = r <- z_object [("id", z_string); ("name", z_string);
                   ("userId", z_nullable (z_optional z_string))] p j ;;
    Return (mkParse (status r) (value r) (issues r)).
Proof.
  intros Hne Hparse. apply String.eqb_neq in Hne.
  unfold custodianSchema, z_pipe, z_transform. simpl.
  rewrite Hne, Hparse. now rewrite andb_false_r.
Qed.



(** A success of a selected schema is the value of a valid object parse. *)
Lemma selected_success schema shape data d :
  selected schema shape ->
  safeParse schema (VObject data) = Return (Success d) ->
  exists R, z_object shape [] (VObject data) = Return R
            /\ status R = valid /\ value R = d.
Proof.
  intros Hsel H. unfold safeParse in H.
  apply bind_Return_inv in H as (R' & HR' & H).
  assert (status R' = valid /\ value R' = d) as [Hst' Hv'].
  { destruct (status R'); [now injection H as <-|..];
      destruct (issues R'); discriminate. }
  destruct Hsel as [-> | ->]; [now exists R'|].
  apply z_refine_inv in HR'
    as (R & HR & [[_ ->]|(_ & ok & _ & ->)]); [discriminate Hst'|].
  exists R. split; [exact HR|].
  destruct (truthy ok); [now split | discriminate Hst'].
Qed.


(** X9. The errors of a record are reported together. In the rule sets that
    validate both dates, when the current instant is [now], a well-typed
    record whose name is shorter than two characters, whose custodian is the
    empty text, whose start date is not after [now] and whose end date is
    not after its start date fails with one error that carries the four
    messages, each at its field. *)
Theorem errors_reported_together :
  forall (hints : option Hints) (action : string)
         (status : option BookingStatus)
         (data : list (string * JsVal)) (n : string) (s e : Z)
         (now : option Z),
    validates_both_dates action status ->
    current_instant host hints now ->
    well_typed host (requires_id action) data = true ->
    get "name" data = VString n ->
    (String.length n < 2)%nat ->
    get "custodian" data = VString EmptyString ->
    Date_new host (get "startDate" data) = Some s ->
    time_gt (Some s) now = false ->
    Date_new host (get "endDate" data) = Some e ->
    e <= s ->
    exists error,
      validate host hints action status (VObject data)
      = Return (Failure error)
      /\ In (mkIssue too_small [Key "name"] "Name is required") error
      /\ In (mkIssue custom [Key "custodian"] "Please select a custodian")
           error
      /\ In (mkIssue custom [Key "startDate"]
               "Start date must be in the future") error
      /\ In (mkIssue custom [Key "endDate"]
               "End date cannot be earlier than start date") error.
Proof.
  intros hints action st data n s e inst Hboth Hn Hwt Hname Hlen Hcust Hs
    Hnow He Hle.
  rewrite (validate_complete host hints action st _ Hboth).
  set (withId := requires_id action) in *.
  destruct (completeShape_parse host hints inst withId data s e Hn Hwt Hs He)
    as (R & HR & Hst & Hstart & Hend & _).
  assert ((e >? s) = false) as Hgt
    by (rewrite Z.gtb_ltb; now apply Z.ltb_ge).
  assert (forall k ty, In (k, ty) (commonFields host) ->
            In (k, ty) (completeShape host hints withId)) as Hcommon
    by (intros k ty Hin; apply in_or_app; now left).
  assert (forall k ty r i,
            In (k, ty) (completeShape host hints withId) ->
            ty [Key k] (get k data) = Return r ->
            In i (issues r) -> In i (issues R)) as Hfield.
  { intros k ty r i Hin Hr Hi.
    now apply (z_object_field _ _ _ _ _ _ _ HR Hin Hr). }
  exists (issues R
          ++ [mkIssue custom [Key "endDate"] endDateMessage]).
  split.
  - unfold safeParse.
    rewrite (z_refine_rejects _ _ _ _ _ _ R _ HR Hst
               (endAfterStart_dates _ s e Hstart Hend) Hgt). simpl.
    destruct (issues R); reflexivity.
  - repeat split; apply in_or_app.
    + left.
      apply (Hfield "name" (z_string_min (Some (2%nat, "Name is required")))
               (mkParse dirty (VString n)
                  [mkIssue too_small [Key "name"] "Name is required"]));
        [apply Hcommon; simpl; tauto| |now left].
      rewrite Hname. unfold z_string_min.
      apply Nat.ltb_lt in Hlen. now rewrite Hlen.
    + left.
      apply (Hfield "custodian" (custodianSchema host)
               (mkParse dirty z_NEVER
                  [mkIssue custom [Key "custodian"]
                     "Please select a custodian"]));
        [apply Hcommon; simpl; tauto| |now left].
      rewrite Hcust. apply custodian_empty.
    + left.
      apply (Hfield "startDate" (startDateSchema host hints)
               (mkParse dirty (VDate (Some s))
                  [mkIssue custom [Key "startDate"]
                     "Start date must be in the future"]));
        [destruct withId; simpl; tauto| |now left].
      destruct (startDateSchema_total host hints
                  (current_instant_known host hints inst Hn)
                  [Key "startDate"] (get "startDate" data)) as [r Hr].
      destruct (startDate_result host hints inst _ _ s r Hn Hs Hr)
        as (_ & _ & Hd).
      now rewrite Hr, (Hd Hnow).
    + right. now left.
Qed.

End Errors.

(** ** The start-date input, further *)

Section StartDateInputFurther.

Variable host : Host.

(** X10. The handler is idempotent: a second change to the same start date
    leaves the end date where the first change put it. *)
Theorem onStartDateChange_idempotent :
  forall (isNewBooking : bool) (endDate : option string) (value : string),
    onStartDateChange host isNewBooking
      (onStartDateChange host isNewBooking endDate value) value
    = onStartDateChange host isNewBooking endDate value.
Proof.
  intros isNewBooking endDate value. unfold onStartDateChange.
  destruct endDate as [e|]; [|reflexivity].
  destruct (isNewBooking && truthy (VString e)
            && time_gt (Date_new host (VString value))
                 (Date_new host (VString e))) eqn:Hfirst.
  - match goal with
    | |- (if ?c then _ else _) = _ => destruct c; reflexivity
    end.
  - now rewrite Hfirst.
Qed.

(** Six in the evening of the day of a start that is at six in the evening
    or later, on the local clock, is not after that start. *)
Lemma setHours_late (s : Z) :
  64800000 <= TimeWithinDay (LocalTime host s) ->
  exists t, setHours host (Some s) 18 0 0 = Some t /\ t <= s.
Proof.
  intros Hlate. eexists. split; [reflexivity|].
  unfold UTC, MakeDate, MakeTime, Day, msFromTime, TimeWithinDay, msPerDay
    in *.
  remember (LocalTime host s) as lt eqn:Hlt. unfold LocalTime in Hlt.
  pose proof (Z.div_mod lt 86400000) as Hd.
  pose proof (Z.mod_pos_bound lt 86400000) as Hdb.
  pose proof (Z.div_mod lt 1000) as Hm.
  pose proof (Z.mod_pos_bound lt 1000) as Hmb.
  lia.
Qed.

(** X11. The adjusted end date can be rejected by the schema of the form.
    When the start of a new booking moves past its end to an instant at six
    in the evening or later, the handler writes six in the evening of that
    day; the runtime reading that text back as this instant, a record with
    the new start and the written end never passes the schema for ["new"]. *)
Theorem late_start_adjustment_rejected :
  forall (hints : option Hints) (status : option BookingStatus)
         (e value : string) (s t : Z) (data : list (string * JsVal)),
    e <> EmptyString ->
    Date_new host (VString value) = Some s ->
    Date_new host (VString e) = Some t ->
    t < s ->
    64800000 <= TimeWithinDay (LocalTime host s) ->
    exists text,
      onStartDateChange host true (Some e) value = Some text
      /\ (Date_new host (VString text) = setHours host (Some s) 18 0 0 ->
          get "startDate" data = VString value ->
          get "endDate" data = VString text ->
          ~ passes (validate host hints "new" status (VObject data))).
Proof.
  intros hints st e value s t data Hne Hs Ht Hlt Hlate.
  destruct (setHours_late s Hlate) as (t18 & Hset & Hle).
  eexists. split.
  - unfold onStartDateChange. apply String.eqb_neq in Hne.
    assert ((s >? t) = true) as Hgt
      by (rewrite Z.gtb_ltb; now apply Z.ltb_lt).
    rewrite Hs, Ht. unfold truthy, time_gt. rewrite Hne, Hgt.
    cbv zeta. cbn [andb negb]. reflexivity.
  - intros Hread Hstart Hend.
    change (validate host hints "new" st (VObject data))
      with (safeParse
              (z_refine (z_object (completeShape host hints false))
                 endAfterStart endDateMessage [Key "endDate"])
              (VObject data)).
    apply (complete_rejects_order host hints false data s t18);
      [now rewrite Hstart| |exact Hle].
    rewrite Hend, Hread. exact Hset.
Qed.

End StartDateInputFurther.

(** ** The form component *)

(** X12. The inputs lock in a fixed order: whenever the name input is
    disabled the date inputs are disabled, and whenever the date inputs are
    disabled the custodian select is disabled. So a form that lets the dates
    or the custodian be edited lets the name be edited. *)
Theorem inputs_lock_in_order :
  forall (isProcessing isBaseOrSelfService : bool)
         (bookingStatus : option BookingStatusHelpers),
    (nameInputDisabled isProcessing bookingStatus = true ->
     inputFieldIsDisabled isProcessing bookingStatus = true)
    /\ (inputFieldIsDisabled isProcessing bookingStatus = true ->
        custodianSelectDisabled isProcessing isBaseOrSelfService
          bookingStatus = true).
Proof.
  intros isProcessing isBaseOrSelfService bookingStatus.
  unfold nameInputDisabled, custodianSelectDisabled, inputFieldIsDisabled,
    disabled.
  split.
  - destruct isProcessing, (flag isArchived bookingStatus),
      (flag isReserved bookingStatus), (flag isOngoing bookingStatus),
      (flag isCompleted bookingStatus), (flag isOverdue bookingStatus),
      (flag isCancelled bookingStatus);
      simpl; intros H; try discriminate H; reflexivity.
  - intros ->. apply orb_true_r.
Qed.

(** X13. The Save button is rendered and enabled exactly when the header
    actions are rendered (the booking is stored and the user can see its
    actions) and the name input is enabled.  So the form of a new booking,
    and the form of a user who cannot see the actions, has no Save button
    among the header actions, whatever the state of the name input. *)
Theorem save_available_iff_name_editable :
  forall (id : option string) (canSeeActions isProcessing : bool)
         (bookingStatus : option BookingStatusHelpers),
    (saveButtonShown id canSeeActions bookingStatus
     && negb (disabled isProcessing bookingStatus)
     = headerActionsShown id canSeeActions
       && negb (nameInputDisabled isProcessing bookingStatus))
    /\ (isNewBooking id = true \/ canSeeActions = false ->
        saveButtonShown id canSeeActions bookingStatus = false).
Proof.
  intros id canSeeActions isProcessing bookingStatus.
  unfold saveButtonShown, nameInputDisabled, disabled, headerActionsShown.
  split.
  - destruct (isNewBooking id), canSeeActions, isProcessing,
      (flag isArchived bookingStatus), (flag isCompleted bookingStatus),
      (flag isCancelled bookingStatus); reflexivity.
  - intros [-> | ->]; [reflexivity|].
    now rewrite andb_false_r.
Qed.

(** X14. The Reserve button is enabled exactly when the form is not
    processing, the booking is not archived, it has assets and none of them
    is already booked or unavailable; a booking without flags cannot be
    reserved; and a disabled Reserve button lacks a reason only while the
    form is processing. *)
Theorem reserve_button_enabled_iff :
  forall (isProcessing : bool) (bookingStatus : option BookingStatusHelpers)
         (bookingFlags : option BookingFlags),
    (reserveButtonDisabled isProcessing bookingStatus bookingFlags = Enabled
     <-> isProcessing = false
         /\ flag isArchived bookingStatus = false
         /\ flag hasAssets bookingFlags = true
         /\ flag hasAlreadyBookedAssets bookingFlags = false
         /\ flag hasUnavailableAssets bookingFlags = false)
    /\ reserveButtonDisabled isProcessing bookingStatus None <> Enabled
    /\ (reserveButtonDisabled isProcessing bookingStatus bookingFlags
        = Disabled None -> isProcessing = true).
Proof.
  intros isProcessing bookingStatus bookingFlags.
  unfold reserveButtonDisabled, disabled.
  destruct isProcessing, (flag isArchived bookingStatus),
    (flag hasAssets bookingFlags),
    (flag hasAlreadyBookedAssets bookingFlags),
    (flag hasUnavailableAssets bookingFlags);
    simpl; intuition congruence.
Qed.

(** X15. The check-out dialog is enabled exactly when the form is not
    processing, the booking is not archived and none of its assets is
    unavailable, checked out or in custody; when disabled it lacks a reason
    only while the form is processing, and the custody reason is shown
    whenever assets are in custody. *)
Theorem checkout_enabled_iff :
  forall (isProcessing : bool) (bookingStatus : option BookingStatusHelpers)
         (bookingFlags : option BookingFlags),
    (checkoutDisabled isProcessing bookingStatus bookingFlags = Enabled
     <-> isProcessing = false
         /\ flag isArchived bookingStatus = false
         /\ flag hasUnavailableAssets bookingFlags = false
         /\ flag hasCheckedOutAssets bookingFlags = false
         /\ flag hasAssetsInCustody bookingFlags = false)
    /\ (checkoutDisabled isProcessing bookingStatus bookingFlags
        = Disabled None -> isProcessing = true)
    /\ (flag hasAssetsInCustody bookingFlags = true ->
        checkoutDisabled isProcessing bookingStatus bookingFlags
        = Disabled (Some "Some assets in this booking are currently in custody. You need to resolve that before you can check-out")).
Proof.
  intros isProcessing bookingStatus bookingFlags.
  unfold checkoutDisabled, disabled.
  destruct isProcessing, (flag isArchived bookingStatus),
    (flag hasUnavailableAssets bookingFlags),
    (flag hasCheckedOutAssets bookingFlags),
    (flag hasAssetsInCustody bookingFlags);
    simpl; intuition congruence.
Qed.

(** X16. Who sees the actions. A user who is not a base or self-service user
    always does. A base or self-service user does only when the custodian
    reference names a member of the team, by user id or by member id, and
    that member is the user. *)
Theorem canSeeActions_custodian_only :
  forall (isBaseOrSelfService : bool)
         (teamMembers : option (list TeamMember))
         (custodianRef : option string) (userId : string),
    (isBaseOrSelfService = false ->
     canSeeActions isBaseOrSelfService teamMembers custodianRef userId
     = true)
    /\ (isBaseOrSelfService = true ->
        canSeeActions isBaseOrSelfService teamMembers custodianRef userId
        = true ->
        exists members m ref,
          teamMembers = Some members /\ In m members
          /\ custodianRef = Some ref
          /\ (memberUserId m = Some ref \/ memberId m = ref)
          /\ (memberUserId m = Some userId \/ memberId m = userId)).
Proof.
  intros isBaseOrSelfService teamMembers custodianRef userId.
  unfold canSeeActions. split; [intros ->; reflexivity|].
  intros -> H. simpl in H.
  destruct (defaultTeamMember teamMembers custodianRef) as [m|] eqn:Hm;
    [|discriminate].
  unfold defaultTeamMember in Hm.
  destruct teamMembers as [members|]; [|discriminate].
  apply find_some in Hm as [Hin Hmatch].
  assert (forall ref, userIdIs m ref || idIs m ref = true ->
            exists r, ref = Some r
                      /\ (memberUserId m = Some r \/ memberId m = r))
    as Hid.
  { intros ref Href. unfold userIdIs, idIs in Href.
    destruct ref as [r|];
      [|destruct (memberUserId m); discriminate].
    exists r. split; [reflexivity|].
    apply orb_true_iff in Href as [Href|Href].
    - destruct (memberUserId m) as [u|]; [|discriminate].
      apply String.eqb_eq in Href as ->. now left.
    - apply String.eqb_eq in Href. now right. }
  destruct (Hid _ Hmatch) as (ref & -> & Href).
  destruct (Hid (Some userId) H) as (u & [= <-] & Hu).
  exists members, m, ref. repeat split; assumption.
Qed.

Section FormSchemaProperties.

Variable host : Host.

(** X17. The schema the component asks for. For a new booking, one without
    an id or with the empty id, it is the schema for ["new"] without hints,
    whatever the status; for a stored booking the request throws exactly
    when the status is absent. *)
Theorem formSchema_request :
  forall (id : option string) (status : option BookingStatus),
    (isNewBooking id = true ->
     formSchema host id status = Return (schemaForNew host None))
    /\ (isNewBooking id = false ->
        ((exists e, formSchema host id status = Throw e)
         <-> status = None)).
Proof.
  intros id status. unfold formSchema. split; intros ->; [reflexivity|].
  split.
  - intros [e H]. destruct status as [st|]; [|reflexivity].
    unfold BookingFormSchema in H. simpl in H.
    destruct (saveCase host None st); discriminate H.
  - intros ->. eexists. reflexivity.
Qed.

End FormSchemaProperties.

(** ** The further properties on concrete records *)


(** X4, witness: the complete booking is accepted for ["reserve"]; under
    the hint [Asia/Tokyo] the booking that starts at 05:00 is not accepted
    for ["new"], the instant read in Tokyo being 09:00. *)
Lemma complete_accepts_iff_witness :
  validates_both_dates "reserve" None
  /\ passes (validate host2024 None "reserve" None (VObject completeBooking))
  /\ current_instant host2024 tokyo (Some 1704099600000)
  /\ ~ passes (validate host2024 tokyo "new" None (VObject startsAtFive)).
Proof.
  assert (validates_both_dates "reserve" None) as Hboth
    by (right; left; reflexivity).
  assert (validates_both_dates "new" None) as Hnew
    by (left; reflexivity).
  assert (current_instant host2024 tokyo (Some 1704099600000)) as Hn
    by (exists "1/1/2024, 9:00:00 AM"; split; reflexivity).
  split; [exact Hboth|]. split; [|split; [exact Hn|]].
  - apply (complete_accepts_iff host2024 None "reserve" None completeBooking
             (Some 1704067200000) Hboth eq_refl).
    reflexivity.
  - intros Hpass.
    apply (complete_accepts_iff host2024 tokyo "new" None startsAtFive
             (Some 1704099600000) Hnew Hn) in Hpass.
    discriminate Hpass.
Defined.





(** X9, witness: the new booking with every field wrong fails with the four
    messages. *)
Lemma errors_reported_together_witness :
  validate host2024 None "new" None (VObject allWrong)
  = Return
      (Failure
         [mkIssue too_small [Key "name"] "Name is required";
          mkIssue custom [Key "custodian"] "Please select a custodian";
          mkIssue custom [Key "startDate"]
            "Start date must be in the future";
          mkIssue custom [Key "endDate"]
            "End date cannot be earlier than start date"]).
Proof.
  destruct (errors_reported_together host2024 None "new" None allWrong
              "T" 1704013200000 1703926800000 (Some 1704067200000))
    as (error & Herr & _); try reflexivity.
  - left. reflexivity.
  - apply Nat.ltb_lt. reflexivity.
  - lia.
Defined.

(** X11, witness: the end 2024-01-10T10:00 becomes 2024-01-12T18:00 when the
    start moves to 2024-01-12T19:30, and the form then rejects the pair. *)
Lemma late_start_adjustment_rejected_witness :
  onStartDateChange host2024 true (Some "2024-01-10T10:00")
    "2024-01-12T19:30" = Some "2024-01-12T18:00"
  /\ ~ passes (validate host2024 None "new" None (VObject lateStart)).
Proof.
  destruct (late_start_adjustment_rejected host2024 None None
              "2024-01-10T10:00" "2024-01-12T19:30"
              1705087800000 1704880800000 lateStart)
    as (text & Htext & Hreject); try reflexivity.
  - discriminate.
  - vm_compute. discriminate.
  - assert (text = "2024-01-12T18:00") as ->
      by (vm_compute in Htext; now injection Htext as <-).
    split; [reflexivity|]. apply Hreject; reflexivity.
Defined.

(** X12, witness: while a draft is processed the name input is disabled, and
    so are the date inputs and the custodian select. *)
Lemma inputs_lock_in_order_witness :
  nameInputDisabled true (Some draftFlags) = true
  /\ inputFieldIsDisabled true (Some draftFlags) = true
  /\ custodianSelectDisabled true false (Some draftFlags) = true.
Proof.
  destruct (inputs_lock_in_order true false (Some draftFlags))
    as [Hname Hdates].
  split; [reflexivity|]. split.
  - apply Hname. reflexivity.
  - apply Hdates. reflexivity.
Defined.

(** X13, witness: the form of a stored draft that the user can act on
    shows an enabled Save button; the form of a new booking shows none,
    though its name input is enabled. *)
Lemma save_available_iff_name_editable_witness :
  saveButtonShown (Some "booking_1") true (Some draftFlags)
  && negb (disabled false (Some draftFlags)) = true
  /\ saveButtonShown None true None = false
  /\ nameInputDisabled false None = false.
Proof.
  split; [|split].
  - rewrite (proj1 (save_available_iff_name_editable (Some "booking_1")
                      true false (Some draftFlags))).
    reflexivity.
  - apply (proj2 (save_available_iff_name_editable None true false None)).
    left. reflexivity.
  - reflexivity.
Defined.

(** X14, witness: a draft with free assets can be reserved; without flags it
    cannot. *)
Lemma reserve_button_enabled_iff_witness :
  reserveButtonDisabled false (Some draftFlags) (Some freeAssets) = Enabled
  /\ reserveButtonDisabled false (Some draftFlags) None <> Enabled.
Proof.
  destruct (reserve_button_enabled_iff false (Some draftFlags)
              (Some freeAssets)) as (Hiff & Hnone & _).
  split; [|exact Hnone].
  apply Hiff. repeat split; reflexivity.
Defined.

(** X15, witness: a reserved booking with an asset in custody cannot be
    checked out, for the custody reason. *)
Lemma checkout_enabled_iff_witness :
  checkoutDisabled false (Some reservedFlags) (Some assetsInCustody)
  = Disabled (Some "Some assets in this booking are currently in custody. You need to resolve that before you can check-out").
Proof.
  apply (proj2 (proj2 (checkout_enabled_iff false (Some reservedFlags)
                         (Some assetsInCustody)))).
  reflexivity.
Defined.

(** X16, witness: Jane, a self-service user, sees the actions of the booking
    whose custodian is her team member. *)
Lemma canSeeActions_custodian_only_witness :
  canSeeActions true (Some team) (Some "tm_1") "user_jane" = true
  /\ exists members m ref,
       Some team = Some members /\ In m members
       /\ Some "tm_1" = Some ref
       /\ (memberUserId m = Some ref \/ memberId m = ref)
       /\ (memberUserId m = Some "user_jane" \/ memberId m = "user_jane").
Proof.
  split; [reflexivity|].
  apply (proj2 (canSeeActions_custodian_only true (Some team)
                  (Some "tm_1") "user_jane")); reflexivity.
Defined.

(** X17, witness: the form of a new booking asks for the schema for ["new"];
    the form of a stored booking without a status throws. *)
Lemma formSchema_request_witness :
  formSchema host2024 (Some EmptyString) (Some DRAFT)
  = Return (schemaForNew host2024 None)
  /\ exists e, formSchema host2024 (Some "booking_1") None = Throw e.
Proof.
  split.
  - apply (proj1 (formSchema_request host2024 (Some EmptyString)
                    (Some DRAFT))). reflexivity.
  - apply (proj2 (formSchema_request host2024 (Some "booking_1") None)
             eq_refl). reflexivity.
Defined.
